(** * StablePay-ETF: wallet authentication, role resolution and route guard

    A shallow embedding of the client-side authentication code of the
    repository:

    - [src/lib/auth-service.ts]      the [AuthService] class,
    - [src/stores/useEmployeeStore.ts] the IndexedDB wrappers [employerDB]
      and [employeeDB] (the [lib/db] module) and the employee store,
    - [src/app/actions/employee-registration.ts] [handleEmployeeRegistration],
    - the [useAuthentication] hook, and
    - [src/middleware.ts]            the route guard.

    Asynchronous code runs sequentially (every call is awaited), so a
    function of the program is a state transformer over a [World] that
    returns a value or throws.  The browser wallet, IndexedDB, the clock,
    the user store and the router are fields of the world; every request
    to one of them is appended to a trace. *)

From Stdlib Require Import ZArith String Ascii List Lia Bool HexString DecimalString.
From stdpp Require Import base gmap strings list.

Local Open Scope string_scope.
Local Open Scope list_scope.
Local Open Scope Z_scope.

(** ** JavaScript values *)

Module Js.

(** An exception value.  [code] is the [code] property a wallet provider
    (EIP-1193) or a DOMException carries; [new Error(msg)] has none. *)
Record Error := mkError { code : option Z; message : string }.

Definition new_Error (msg : string) : Error :=
  {| code := None; message := msg |}.

#[global] Instance Error_eq_dec : EqDecision Error.
Proof. solve_decision. Defined.

(** The outcome of a call: a value, or a thrown exception. *)
Inductive result (A : Type) : Type :=
| Ok (a : A)
| Throw (e : Error).
Arguments Ok {A} a.
Arguments Throw {A} e.

(** A JavaScript number as far as the program uses one: an integer or
    NaN.  Chain identifiers are integers well inside the range where
    doubles are exact. *)
Inductive number : Type :=
| NaN
| Num (z : Z).

(** [a === b] on numbers: NaN is equal to nothing. *)
Definition strict_eq (a b : number) : bool :=
  match a, b with
  | Num x, Num y => x =? y
  | _, _ => false
  end.

(** [Array.prototype.includes] uses SameValueZero, under which NaN is
    found in an array that holds NaN. *)
Definition same_value_zero (a b : number) : bool :=
  match a, b with
  | NaN, NaN => true
  | Num x, Num y => x =? y
  | _, _ => false
  end.

Definition includes (l : list number) (x : number) : bool :=
  existsb (same_value_zero x) l.

(** Truthiness of a string: the empty string is falsy. *)
Definition truthy (s : string) : bool :=
  match s with
  | EmptyString => false
  | String _ _ => true
  end.

(** [s || d] for strings. *)
Definition or_else (s d : string) : string :=
  if truthy s then s else d.

(** *** Strings

    Strings are sequences of bytes; case mapping and white space are
    those of ASCII, which is all a hexadecimal address contains. *)

Definition is_upper (c : ascii) : bool :=
  let n := nat_of_ascii c in ((65 <=? n) && (n <=? 90))%nat.

Definition is_lower (c : ascii) : bool :=
  let n := nat_of_ascii c in ((97 <=? n) && (n <=? 122))%nat.

Definition lower_char (c : ascii) : ascii :=
  if is_upper c then ascii_of_nat (nat_of_ascii c + 32) else c.

Definition upper_char (c : ascii) : ascii :=
  if is_lower c then ascii_of_nat (nat_of_ascii c - 32) else c.

Fixpoint map_string (f : ascii -> ascii) (s : string) : string :=
  match s with
  | EmptyString => EmptyString
  | String c s' => String (f c) (map_string f s')
  end.

Definition toLowerCase : string -> string := map_string lower_char.
Definition toUpperCase : string -> string := map_string upper_char.

Definition is_space (c : ascii) : bool :=
  let n := nat_of_ascii c in
  ((n =? 32) || ((9 <=? n) && (n <=? 13)))%nat.

Fixpoint trimStart (s : string) : string :=
  match s with
  | String c s' => if is_space c then trimStart s' else s
  | EmptyString => EmptyString
  end.

(** [trimEnd]: a character is kept when it is not white space or when
    something that is kept follows it. *)
Fixpoint trimEnd (s : string) : string :=
  match s with
  | EmptyString => EmptyString
  | String c s' =>
      match trimEnd s' with
      | EmptyString => if is_space c then EmptyString else String c EmptyString
      | rest => String c rest
      end
  end.

Definition trim (s : string) : string := trimEnd (trimStart s).

(** [s.startsWith(p)] *)
Definition startsWith (s p : string) : bool := String.prefix p s.

(** *** Hexadecimal numbers *)

Definition hex_digit (c : ascii) : option Z :=
  let n := Z.of_nat (nat_of_ascii c) in
  if (48 <=? n) && (n <=? 57) then Some (n - 48)
  else if (97 <=? n) && (n <=? 102) then Some (n - 87)
  else if (65 <=? n) && (n <=? 70) then Some (n - 55)
  else None.

Definition is_hex (c : ascii) : bool :=
  match hex_digit c with Some _ => true | None => false end.

(** The longest prefix of hexadecimal digits, read as a number; [acc] is
    [None] until a digit has been read. *)
Fixpoint parse_hex_digits (acc : option Z) (s : string) : option Z :=
  match s with
  | EmptyString => acc
  | String c s' =>
      match hex_digit c with
      | Some d => parse_hex_digits (Some (16 * default 0 acc + d)) s'
      | None => acc
      end
  end.

(** [parseInt(s, 16)]: leading white space is skipped, a sign is read, a
    [0x] or [0X] prefix is dropped, and the digits that follow are read as
    far as they go; with no digit the result is NaN. *)
Definition parseInt16 (s : string) : number :=
  let s := trimStart s in
  let '(sign, s) :=
    match s with
    | String "-" s' => (-1, s')
    | String "+" s' => (1, s')
    | _ => (1, s)
    end in
  let s :=
    match s with
    | String "0" (String "x" s') => s'
    | String "0" (String "X" s') => s'
    | _ => s
    end in
  match parse_hex_digits None s with
  | Some n => Num (sign * n)
  | None => NaN
  end.

(** [n.toString(16)] for an integer [n]. *)
Definition toString16 (n : Z) : string :=
  match n with
  | Z0 => "0"
  | Zpos p => HexString.Raw.of_pos p ""
  | Zneg p => String "-" (HexString.Raw.of_pos p "")
  end.

(** [`${n}`], the decimal numeral of an integer. *)
Definition decimal (n : Z) : string := NilZero.string_of_int (Z.to_int n).

(** The template [`0x${chainId.toString(16)}`]. *)
Definition hexChainId (chainId : Z) : string := "0x" +:+ toString16 chainId.

End Js.
Export Js.

(** ** The world the program runs in *)

(** *** IndexedDB ([lib/db], in [src/stores/useEmployeeStore.ts]) *)

Inductive Status : Type := Active | Inactive.

(** [StablePayDB['employers']['value']] *)
Record Employer := mkEmployer {
  er_address : string;
  er_name : option string;
  er_registrationDate : Z;
  er_lastLogin : option Z
}.

(** [StablePayDB['employees']['value']] *)
Record Employee := mkEmployee {
  ee_address : string;
  ee_name : string;
  ee_employerAddress : string;
  ee_amount : string;
  ee_schedule : string;
  ee_registrationDate : Z;
  ee_lastPaid : option Z;
  ee_status : Status
}.

(** [Omit<employers value, 'registrationDate'>], the argument of
    [employerDB.add]. *)
Record EmployerInput := mkEmployerInput {
  ei_address : string;
  ei_name : option string;
  ei_lastLogin : option Z
}.

(** [Omit<employees value, 'registrationDate' | 'status'>], the argument
    of [employeeDB.add]. *)
Record EmployeeInput := mkEmployeeInput {
  ni_address : string;
  ni_name : string;
  ni_employerAddress : string;
  ni_amount : string;
  ni_schedule : string;
  ni_lastPaid : option Z
}.

(** [Partial<employers value> & { address }], the argument of
    [employerDB.update]: an absent property is [None]. *)
Record EmployerPatch := mkEmployerPatch {
  ep_address : string;
  ep_name : option string;
  ep_registrationDate : option Z;
  ep_lastLogin : option Z
}.

(** [Partial<employees value> & { address }], the argument of
    [employeeDB.update]. *)
Record EmployeePatch := mkEmployeePatch {
  np_address : string;
  np_name : option string;
  np_employerAddress : option string;
  np_amount : option string;
  np_schedule : option string;
  np_registrationDate : option Z;
  np_lastPaid : option Z;
  np_status : option Status
}.

Inductive StoreName : Type := Employers | Employees.

#[global] Instance StoreName_eq_dec : EqDecision StoreName.
Proof. solve_decision. Defined.

(** The database [stablepay-etf-db]: two object stores with key path
    [address].  [store_error s = Some e] is a store whose requests are
    rejected with [e] (the database cannot be opened, the transaction
    aborts); [None] is a store that answers. *)
Record Database := mkDatabase {
  employers : gmap string Employer;
  employees : gmap string Employee;
  store_error : StoreName -> option Error
}.

(** *** The wallet provider ([window.ethereum]) *)

(** [NetworkDetails] *)
Record Currency := mkCurrency {
  cur_name : string;
  cur_symbol : string;
  cur_decimals : Z
}.

Record NetworkDetails := mkNetworkDetails {
  name : string;
  nativeCurrency : Currency;
  rpcUrls : list string;
  blockExplorerUrls : list string
}.

(** The parameter object of [wallet_addEthereumChain]. *)
Record AddChainParams := mkAddChainParams {
  ac_chainId : string;
  ac_chainName : string;
  ac_nativeCurrency : Currency;
  ac_rpcUrls : list string;
  ac_blockExplorerUrls : list string
}.

(** What the wallet answers.  The account list may be [null]
    ([None]).  [chain] is the answer to [eth_chainId].  A switch or add
    request is either rejected, or resolves and leaves the wallet on the
    chain whose identifier it then reports (the wallet decides which). *)
Record Wallet := mkWallet {
  accounts : result (option (list string));
  accounts_refresh : result unit;
  signer_address : result string;
  chain : result string;
  on_switch : string -> result string;
  on_add : AddChainParams -> result string
}.

Definition set_chain (c : string) (wal : Wallet) : Wallet :=
  {| accounts := accounts wal;
     accounts_refresh := accounts_refresh wal;
     signer_address := signer_address wal;
     chain := Ok c;
     on_switch := on_switch wal;
     on_add := on_add wal |}.

(** *** User-interface state *)

Inductive Role : Type := employer | employee.

#[global] Instance Role_eq_dec : EqDecision Role.
Proof. solve_decision. Defined.

(** [UserRole = 'employer' | 'employee' | null] *)
Definition UserRole : Type := option Role.

(** The state of [useUserStore]. *)
Record UserState := mkUserState {
  us_address : option string;
  us_role : UserRole;
  us_isConnected : bool;
  us_isAuthenticated : bool;
  us_employerAddress : option string
}.

(** The state of [useEmployeeStore]. *)
Record EmployeeState := mkEmployeeState {
  es_employeeData : option Employee;
  es_isLoading : bool;
  es_error : option string
}.

(** The local state of the [useAuthentication] hook. *)
Record HookState := mkHookState {
  hk_isLoading : bool;
  hk_error : option string
}.

(** *** Requests the program makes *)

Inductive Event : Type :=
| Rpc_requestAccounts
| Rpc_accounts
| Rpc_getAddress
| Rpc_chainId
| Rpc_switchChain (chainId : string)
| Rpc_addChain (p : AddChainParams)
| Db_get (s : StoreName) (key : string)
| Db_add (s : StoreName) (key : string)
| Db_put (s : StoreName) (key : string)
| Set_address (a : option string)
| Set_role (r : UserRole)
| Set_isConnected (b : bool)
| Set_isAuthenticated (b : bool)
| Set_employerAddress (a : option string)
| Router_push (path : string).

(** *** The world *)

Record World := mkWorld {
  ethereum : option Wallet;      (* window.ethereum *)
  has_provider : bool;           (* AuthService.provider is not null *)
  has_signer : bool;             (* AuthService.signer is not null *)
  idb : Database;
  clock : Z;                     (* what Date.now() returns *)
  user : UserState;
  employeeStore : EmployeeState;
  hook : HookState;
  trace : list Event
}.

Definition with_ethereum (x : option Wallet) (w : World) : World :=
  mkWorld x (has_provider w) (has_signer w) (idb w) (clock w) (user w)
          (employeeStore w) (hook w) (trace w).
Definition with_provider (x : bool) (w : World) : World :=
  mkWorld (ethereum w) x (has_signer w) (idb w) (clock w) (user w)
          (employeeStore w) (hook w) (trace w).
Definition with_signer (x : bool) (w : World) : World :=
  mkWorld (ethereum w) (has_provider w) x (idb w) (clock w) (user w)
          (employeeStore w) (hook w) (trace w).
Definition with_idb (x : Database) (w : World) : World :=
  mkWorld (ethereum w) (has_provider w) (has_signer w) x (clock w) (user w)
          (employeeStore w) (hook w) (trace w).
Definition with_user (x : UserState) (w : World) : World :=
  mkWorld (ethereum w) (has_provider w) (has_signer w) (idb w) (clock w) x
          (employeeStore w) (hook w) (trace w).
Definition with_employeeStore (x : EmployeeState) (w : World) : World :=
  mkWorld (ethereum w) (has_provider w) (has_signer w) (idb w) (clock w)
          (user w) x (hook w) (trace w).
Definition with_hook (x : HookState) (w : World) : World :=
  mkWorld (ethereum w) (has_provider w) (has_signer w) (idb w) (clock w)
          (user w) (employeeStore w) x (trace w).
Definition with_trace (x : list Event) (w : World) : World :=
  mkWorld (ethereum w) (has_provider w) (has_signer w) (idb w) (clock w)
          (user w) (employeeStore w) (hook w) x.

(** ** Computations: state passing with exceptions *)

Definition M (A : Type) : Type := World -> result A * World.

Definition ret {A} (a : A) : M A := fun w => (Ok a, w).

Definition throw {A} (e : Error) : M A := fun w => (Throw e, w).

Definition bind {A B} (m : M A) (k : A -> M B) : M B :=
  fun w =>
    match m w with
    | (Ok a, w') => k a w'
    | (Throw e, w') => (Throw e, w')
    end.

(** [try { m } catch (error) { h error }]: the state changes of [m] stay. *)
Definition try_catch {A} (m : M A) (h : Error -> M A) : M A :=
  fun w =>
    match m w with
    | (Ok a, w') => (Ok a, w')
    | (Throw e, w') => h e w'
    end.

(** [try { m } finally { f }] for an [f] that does not throw. *)
Definition finally {A} (m : M A) (f : World -> World) : M A :=
  fun w => let '(r, w') := m w in (r, f w').

Declare Scope js_scope.
Delimit Scope js_scope with js.
Notation "x <- m ;; k" := (bind m (fun x => k))
  (at level 100, m at next level, right associativity) : js_scope.
Notation "m ;;; k" := (bind m (fun _ => k))
  (at level 100, right associativity) : js_scope.
Local Open Scope js_scope.

Definition gets {A} (f : World -> A) : M A := fun w => (Ok (f w), w).

Definition modify (f : World -> World) : M unit := fun w => (Ok tt, f w).

Definition emit (e : Event) : M unit :=
  modify (fun w => with_trace (trace w ++ [e]) w).

(** [Date.now()] *)
Definition Date_now : M Z := gets clock.

(** *** Requests to the wallet *)

(** Calling a method of [window.ethereum] when it is undefined. *)
Definition TypeError_no_provider : Error :=
  new_Error "Cannot read properties of undefined (reading 'request')".

Definition with_wallet {A} (k : Wallet -> M A) : M A :=
  fun w =>
    match ethereum w with
    | Some wal => k wal w
    | None => (Throw TypeError_no_provider, w)
    end.

Definition reply {A} (r : result A) : M A := fun w => (r, w).

(** [window.ethereum.request({ method: 'eth_requestAccounts' })] *)
Definition request_eth_requestAccounts : M (option (list string)) :=
  with_wallet (fun wal => emit Rpc_requestAccounts ;;; reply (accounts wal)).

(** [provider.send('eth_accounts', [])] *)
Definition provider_send_eth_accounts : M unit :=
  with_wallet (fun wal => emit Rpc_accounts ;;; reply (accounts_refresh wal)).

(** [signer.getAddress()] *)
Definition signer_getAddress : M string :=
  with_wallet (fun wal => emit Rpc_getAddress ;;; reply (signer_address wal)).

(** [window.ethereum.request({ method: 'eth_chainId' })] *)
Definition request_eth_chainId : M string :=
  with_wallet (fun wal => emit Rpc_chainId ;;; reply (chain wal)).

Definition wallet_moves_to (r : result string) (wal : Wallet) : M unit :=
  match r with
  | Ok c => modify (with_ethereum (Some (set_chain c wal)))
  | Throw e => throw e
  end.

(** [window.ethereum.request({ method: 'wallet_switchEthereumChain', ... })] *)
Definition request_wallet_switchEthereumChain (chainId : string) : M unit :=
  with_wallet (fun wal =>
    emit (Rpc_switchChain chainId) ;;;
    wallet_moves_to (on_switch wal chainId) wal).

(** [window.ethereum.request({ method: 'wallet_addEthereumChain', ... })] *)
Definition request_wallet_addEthereumChain (p : AddChainParams) : M unit :=
  with_wallet (fun wal =>
    emit (Rpc_addChain p) ;;;
    wallet_moves_to (on_add wal p) wal).

(** *** Requests to IndexedDB (the [idb] wrapper) *)

(** The DOMException [add] is rejected with when the key is taken. *)
Definition ConstraintError : Error :=
  {| code := Some 0; message := "Key already exists in the object store." |}.

Definition store_guard (s : StoreName) : M unit :=
  fun w =>
    match store_error (idb w) s with
    | Some e => (Throw e, w)
    | None => (Ok tt, w)
    end.

Definition set_employers (m : gmap string Employer) (d : Database) : Database :=
  {| employers := m; employees := employees d; store_error := store_error d |}.

Definition set_employees (m : gmap string Employee) (d : Database) : Database :=
  {| employers := employers d; employees := m; store_error := store_error d |}.

(** [db.get('employers', key)] *)
Definition db_get_employers (key : string) : M (option Employer) :=
  emit (Db_get Employers key) ;;;
  store_guard Employers ;;;
  gets (fun w => employers (idb w) !! key).

(** [db.get('employees', key)] *)
Definition db_get_employees (key : string) : M (option Employee) :=
  emit (Db_get Employees key) ;;;
  store_guard Employees ;;;
  gets (fun w => employees (idb w) !! key).

(** [db.add('employers', value)]: the key is [value.address]; a key that
    is taken rejects the request and nothing is stored. *)
Definition db_add_employers (value : Employer) : M string :=
  emit (Db_add Employers (er_address value)) ;;;
  store_guard Employers ;;;
  existing <- gets (fun w => employers (idb w) !! er_address value) ;;
  match existing with
  | Some _ => throw ConstraintError
  | None =>
      modify (fun w =>
        with_idb (set_employers (<[er_address value := value]> (employers (idb w))) (idb w)) w) ;;;
      ret (er_address value)
  end.

(** [db.add('employees', value)] *)
Definition db_add_employees (value : Employee) : M string :=
  emit (Db_add Employees (ee_address value)) ;;;
  store_guard Employees ;;;
  existing <- gets (fun w => employees (idb w) !! ee_address value) ;;
  match existing with
  | Some _ => throw ConstraintError
  | None =>
      modify (fun w =>
        with_idb (set_employees (<[ee_address value := value]> (employees (idb w))) (idb w)) w) ;;;
      ret (ee_address value)
  end.

(** [db.put('employers', value)]: stores or replaces. *)
Definition db_put_employers (value : Employer) : M string :=
  emit (Db_put Employers (er_address value)) ;;;
  store_guard Employers ;;;
  modify (fun w =>
    with_idb (set_employers (<[er_address value := value]> (employers (idb w))) (idb w)) w) ;;;
  ret (er_address value).

(** [db.put('employees', value)] *)
Definition db_put_employees (value : Employee) : M string :=
  emit (Db_put Employees (ee_address value)) ;;;
  store_guard Employees ;;;
  modify (fun w =>
    with_idb (set_employees (<[ee_address value := value]> (employees (idb w))) (idb w)) w) ;;;
  ret (ee_address value).

(** ** [lib/db]: [employerDB] and [employeeDB] *)

Module employerDB.

(** [{ ...employerData, registrationDate: Date.now() }] *)
Definition stamped (employerData : EmployerInput) (now : Z) : Employer :=
  {| er_address := ei_address employerData;
     er_name := ei_name employerData;
     er_registrationDate := now;
     er_lastLogin := ei_lastLogin employerData |}.

Definition add (employerData : EmployerInput) : M string :=
  now <- Date_now ;;
  db_add_employers (stamped employerData now).

(** [{ ...existing, ...employerData }] *)
Definition merged (existing : Employer) (employerData : EmployerPatch) : Employer :=
  {| er_address := ep_address employerData;
     er_name := match ep_name employerData with
                | Some n => Some n
                | None => er_name existing
                end;
     er_registrationDate := default (er_registrationDate existing)
                                    (ep_registrationDate employerData);
     er_lastLogin := match ep_lastLogin employerData with
                     | Some t => Some t
                     | None => er_lastLogin existing
                     end |}.

Definition update (employerData : EmployerPatch) : M string :=
  existing <- db_get_employers (ep_address employerData) ;;
  match existing with
  | None => throw (new_Error "Employer not found")
  | Some existing => db_put_employers (merged existing employerData)
  end.

Definition get (address : string) : M (option Employer) :=
  db_get_employers address.

(** [db.put('employers', { ...existing, lastLogin: Date.now() })] *)
Definition updateLastLogin (address : string) : M string :=
  existing <- db_get_employers address ;;
  match existing with
  | None => throw (new_Error "Employer not found")
  | Some existing =>
      now <- Date_now ;;
      db_put_employers
        {| er_address := er_address existing;
           er_name := er_name existing;
           er_registrationDate := er_registrationDate existing;
           er_lastLogin := Some now |}
  end.

End employerDB.

Module employeeDB.

(** [{ ...employeeData, registrationDate: Date.now(), status: 'Active' }] *)
Definition stamped (employeeData : EmployeeInput) (now : Z) : Employee :=
  {| ee_address := ni_address employeeData;
     ee_name := ni_name employeeData;
     ee_employerAddress := ni_employerAddress employeeData;
     ee_amount := ni_amount employeeData;
     ee_schedule := ni_schedule employeeData;
     ee_registrationDate := now;
     ee_lastPaid := ni_lastPaid employeeData;
     ee_status := Active |}.

Definition add (employeeData : EmployeeInput) : M string :=
  now <- Date_now ;;
  db_add_employees (stamped employeeData now).

(** [{ ...existing, ...employeeData }] *)
Definition merged (existing : Employee) (employeeData : EmployeePatch) : Employee :=
  {| ee_address := np_address employeeData;
     ee_name := default (ee_name existing) (np_name employeeData);
     ee_employerAddress := default (ee_employerAddress existing)
                                   (np_employerAddress employeeData);
     ee_amount := default (ee_amount existing) (np_amount employeeData);
     ee_schedule := default (ee_schedule existing) (np_schedule employeeData);
     ee_registrationDate := default (ee_registrationDate existing)
                                    (np_registrationDate employeeData);
     ee_lastPaid := match np_lastPaid employeeData with
                    | Some t => Some t
                    | None => ee_lastPaid existing
                    end;
     ee_status := default (ee_status existing) (np_status employeeData) |}.

Definition update (employeeData : EmployeePatch) : M string :=
  existing <- db_get_employees (np_address employeeData) ;;
  match existing with
  | None => throw (new_Error "Employee not found")
  | Some existing => db_put_employees (merged existing employeeData)
  end.

Definition get (address : string) : M (option Employee) :=
  db_get_employees address.

(** [db.put('employees', { ...existing, lastPaid: Date.now() })] *)
Definition updateLastPaid (address : string) : M string :=
  existing <- db_get_employees address ;;
  match existing with
  | None => throw (new_Error "Employee not found")
  | Some existing =>
      now <- Date_now ;;
      db_put_employees
        {| ee_address := ee_address existing;
           ee_name := ee_name existing;
           ee_employerAddress := ee_employerAddress existing;
           ee_amount := ee_amount existing;
           ee_schedule := ee_schedule existing;
           ee_registrationDate := ee_registrationDate existing;
           ee_lastPaid := Some now;
           ee_status := ee_status existing |}
  end.

(** [db.put('employees', { ...existing, status })] *)
Definition updateStatus (address : string) (status : Status) : M string :=
  existing <- db_get_employees address ;;
  match existing with
  | None => throw (new_Error "Employee not found")
  | Some existing =>
      db_put_employees
        {| ee_address := ee_address existing;
           ee_name := ee_name existing;
           ee_employerAddress := ee_employerAddress existing;
           ee_amount := ee_amount existing;
           ee_schedule := ee_schedule existing;
           ee_registrationDate := ee_registrationDate existing;
           ee_lastPaid := ee_lastPaid existing;
           ee_status := status |}
  end.

End employeeDB.

(** ** [ethers.utils.getAddress]

    The address normalisation of the ethers library (version 5), which
    [registerAsEmployee] calls.  The hash function and the decoding of an
    ICAP address are parameters of the development: nothing below depends
    on what they compute. *)

Section Program.

(** [keccak256] of the ASCII characters of its argument, as bytes. *)
Variable keccak256 : string -> list Z.

(** The 40 hexadecimal digits an ICAP address (XE..) stands for, or [None]
    when its IBAN checksum is wrong. *)
Variable icapToHex : string -> option string.

Fixpoint forallb_string (p : ascii -> bool) (s : string) : bool :=
  match s with
  | EmptyString => true
  | String c s' => p c && forallb_string p s'
  end.

Fixpoint existsb_string (p : ascii -> bool) (s : string) : bool :=
  match s with
  | EmptyString => false
  | String c s' => p c || existsb_string p s'
  end.

Definition strip_0x (s : string) : string :=
  match s with
  | String "0" (String "x" s') => s'
  | _ => s
  end.

(** [address.match(/^(0x)?[0-9a-fA-F]{40}$/)] *)
Definition is_hex_address (address : string) : bool :=
  let body := strip_0x address in
  (String.length body =? 40)%nat && forallb_string is_hex body.

Definition is_digit (c : ascii) : bool :=
  let n := nat_of_ascii c in ((48 <=? n) && (n <=? 57))%nat.

Definition is_alnum (c : ascii) : bool :=
  is_digit c || is_upper c || is_lower c.

(** [address.match(/^XE[0-9]{2}[0-9A-Za-z]{30,31}$/)] *)
Definition is_icap (address : string) : bool :=
  match address with
  | String "X" (String "E" (String d1 (String d2 rest))) =>
      is_digit d1 && is_digit d2 && forallb_string is_alnum rest
      && ((String.length rest =? 30) || (String.length rest =? 31))%nat
  | _ => false
  end.

Definition is_AF (c : ascii) : bool :=
  let n := nat_of_ascii c in ((65 <=? n) && (n <=? 70))%nat.

Definition is_af (c : ascii) : bool :=
  let n := nat_of_ascii c in ((97 <=? n) && (n <=? 102))%nat.

(** [address.match(/([A-F].*[a-f])|([a-f].*[A-F])/)]: a letter of each case
    occurs, in either order. *)
Definition mixed_case (address : string) : bool :=
  existsb_string is_AF address && existsb_string is_af address.

(** The loop of [getChecksumAddress]: character [i] is put in upper case
    when the [i]-th nibble of the hash is 8 or more. *)
Fixpoint checksum_chars (hashed : list Z) (i : nat) (chars : string) : string :=
  match chars with
  | EmptyString => EmptyString
  | String c rest =>
      let byte := nth (i / 2)%nat hashed 0 in
      let nibble := if Nat.even i then Z.shiftr byte 4 else Z.land byte 15 in
      String (if 8 <=? nibble then upper_char c else c)
             (checksum_chars hashed (S i) rest)
  end.

Definition drop2 (s : string) : string :=
  match s with
  | String _ (String _ s') => s'
  | _ => EmptyString
  end.

Definition getChecksumAddress (address : string) : string :=
  let address := toLowerCase address in
  let chars := drop2 address in
  "0x" +:+ checksum_chars (keccak256 chars) 0 chars.

(** [getAddress]: [None] is the thrown "invalid address". *)
Definition getAddress (address : string) : option string :=
  if is_hex_address address then
    let address := if startsWith address "0x" then address else "0x" +:+ address in
    let result := getChecksumAddress address in
    if mixed_case address && negb (String.eqb result address) then None
    else Some result
  else if is_icap address then
    match icapToHex address with
    | Some hex => Some (getChecksumAddress ("0x" +:+ hex))
    | None => None
    end
  else None.

(** ** [src/lib/auth-service.ts] *)

Definition mainnet : NetworkDetails :=
  {| name := "Ethereum Mainnet";
     nativeCurrency := mkCurrency "Ether" "ETH" 18;
     rpcUrls := ["https://mainnet.infura.io/v3/"];
     blockExplorerUrls := ["https://etherscan.io"] |}.

Definition goerli : NetworkDetails :=
  {| name := "Goerli Testnet";
     nativeCurrency := mkCurrency "Goerli Ether" "ETH" 18;
     rpcUrls := ["https://goerli.infura.io/v3/"];
     blockExplorerUrls := ["https://goerli.etherscan.io"] |}.

Definition sepolia : NetworkDetails :=
  {| name := "Sepolia Testnet";
     nativeCurrency := mkCurrency "Sepolia Ether" "ETH" 18;
     rpcUrls := ["https://sepolia.infura.io/v3/"];
     blockExplorerUrls := ["https://sepolia.etherscan.io"] |}.

Definition polygon : NetworkDetails :=
  {| name := "Polygon Mainnet";
     nativeCurrency := mkCurrency "MATIC" "MATIC" 18;
     rpcUrls := ["https://polygon-rpc.com"];
     blockExplorerUrls := ["https://polygonscan.com"] |}.

Definition mumbai : NetworkDetails :=
  {| name := "Mumbai Testnet";
     nativeCurrency := mkCurrency "MATIC" "MATIC" 18;
     rpcUrls := ["https://rpc-mumbai.maticvigil.com"];
     blockExplorerUrls := ["https://mumbai.polygonscan.com"] |}.

Definition pharos : NetworkDetails :=
  {| name := "PHAROS";
     nativeCurrency := mkCurrency "PHAROS" "PHAROS" 18;
     rpcUrls := ["https://devnet.dplabs-internal.com"];
     blockExplorerUrls := [] |}.

(** [SUPPORTED_NETWORKS], in the order of the source. *)
Definition SUPPORTED_NETWORKS : list (Z * NetworkDetails) :=
  [ (1, mainnet); (5, goerli); (11155111, sepolia);
    (137, polygon); (80001, mumbai); (50002, pharos) ].

Definition DEFAULT_NETWORK_ID : Z := 50002.

Fixpoint assoc (k : Z) (l : list (Z * NetworkDetails)) : option NetworkDetails :=
  match l with
  | [] => None
  | (k', v) :: l' => if k =? k' then Some v else assoc k l'
  end.

(** [SUPPORTED_NETWORKS[chainId]] *)
Definition network_at (chainId : number) : option NetworkDetails :=
  match chainId with
  | NaN => None
  | Num z => assoc z SUPPORTED_NETWORKS
  end.

(** [Object.keys(SUPPORTED_NETWORKS).map(Number)] *)
Definition supported_chain_ids : list number :=
  map (fun kv => Num (fst kv)) SUPPORTED_NETWORKS.

Record NetworkStatus := mkNetworkStatus {
  ns_valid : bool;
  ns_chainId : number;
  ns_name : string
}.

Definition has_code (e : Error) (c : Z) : bool :=
  match code e with
  | Some c' => c' =? c
  | None => false
  end.

Definition checkNetwork : M NetworkStatus :=
  eth <- gets ethereum ;;
  match eth with
  | None => ret (mkNetworkStatus false (Num 0) "No wallet detected")
  | Some _ =>
      try_catch
        (chainIdHex <- request_eth_chainId ;;
         let chainId := parseInt16 chainIdHex in
         let isSupported := includes supported_chain_ids chainId in
         let networkName :=
           match isSupported, network_at chainId with
           | true, Some details => name details
           | _, _ => "Unknown Network"
           end in
         ret (mkNetworkStatus isSupported chainId networkName))
        (fun error => ret (mkNetworkStatus false (Num 0) "Error checking network"))
  end.

Definition msg_no_wallet : string :=
  "MetaMask or compatible wallet not detected. Please install a Web3 wallet to continue.".
Definition msg_no_accounts : string :=
  "No accounts found. Please ensure your wallet is unlocked and try again.".
Definition msg_no_address : string :=
  "Failed to get wallet address. Please try again.".
Definition msg_connection_rejected : string :=
  "You rejected the wallet connection request. Please try again and approve the connection.".
Definition msg_connection_pending : string :=
  "Wallet connection request already pending. Please check your wallet and approve the connection.".

Definition connectWallet : M string :=
  eth <- gets ethereum ;;
  match eth with
  | None => throw (new_Error msg_no_wallet)
  | Some _ =>
      try_catch
        (accounts <- request_eth_requestAccounts ;;
         match accounts with
         | None | Some [] => throw (new_Error msg_no_accounts)
         | Some (account0 :: _) =>
             modify (with_provider true) ;;;
             provider_send_eth_accounts ;;;
             modify (with_signer true) ;;;
             address <-
               try_catch
                 (address <- signer_getAddress ;;
                  if truthy address then ret address
                  else throw (new_Error msg_no_address))
                 (fun error =>
                    if truthy account0 then ret account0
                    else throw (new_Error msg_no_address)) ;;
             networkStatus <- checkNetwork ;;
             ret address
         end)
        (fun error =>
           if has_code error 4001 then throw (new_Error msg_connection_rejected)
           else if has_code error (-32002) then throw (new_Error msg_connection_pending)
           else throw error)
  end.

Record RoleInfo := mkRoleInfo {
  role : UserRole;
  employerAddress : option string
}.

Definition checkUserRole (address : string) : M RoleInfo :=
  try_catch
    (employerData <- employerDB.get address ;;
     match employerData with
     | Some _ => ret (mkRoleInfo (Some employer) None)
     | None =>
         employeeData <- employeeDB.get address ;;
         match employeeData with
         | Some data => ret (mkRoleInfo (Some employee) (Some (ee_employerAddress data)))
         | None => ret (mkRoleInfo None None)
         end
     end)
    (fun error => ret (mkRoleInfo None None)).

Record LoginResult := mkLoginResult {
  lr_address : string;
  lr_role : UserRole;
  lr_employerAddress : option string
}.

Definition msg_login_network (networkName : string) : string :=
  "Please switch to a supported network to login. Current network: " +:+ networkName.
Definition msg_not_registered : string :=
  "This wallet is not registered. Please register first to access the platform.".

Definition login : M LoginResult :=
  try_catch
    (address <- connectWallet ;;
     networkStatus <- checkNetwork ;;
     if negb (ns_valid networkStatus)
     then throw (new_Error (msg_login_network (ns_name networkStatus)))
     else
       r <- checkUserRole address ;;
       match role r with
       | None => throw (new_Error msg_not_registered)
       | Some _ => ret (mkLoginResult address (role r) (employerAddress r))
       end)
    (fun error =>
       if has_code error 4001 then throw (new_Error msg_connection_rejected)
       else throw error).

Definition msg_no_connection : string :=
  "No wallet connection available. Please connect your wallet first.".
Definition msg_register_network (networkName : string) : string :=
  "Please switch to a supported network to register. Current network: " +:+ networkName.
Definition msg_already_employer : string :=
  "This wallet is already registered as an employer. Please use a different wallet or log in instead.".
Definition msg_employee_not_employer : string :=
  "This wallet is already registered as an employee. Please use a different wallet to register as an employer.".
Definition msg_already_employee : string :=
  "This wallet is already registered as an employee. Please use a different wallet or log in instead.".
Definition msg_employer_not_employee : string :=
  "This wallet is already registered as an employer. Please use a different wallet to register as an employee.".
Definition msg_connection_failed : string :=
  "Wallet connection failed. Please try connecting your wallet again.".
Definition msg_invalid_employer : string :=
  "Invalid employer address format. Please provide a valid Ethereum address.".
Definition msg_self_employment : string :=
  "You cannot register as an employee using your own address as the employer.".
Definition msg_employer_not_found : string :=
  "Employer not found. Please verify the employer address and try again.".

(** [if (!this.signer) { await this.connectWallet(); }] *)
Definition ensure_signer : M unit :=
  signer <- gets has_signer ;;
  if signer then ret tt else (connectWallet ;;; ret tt).

(** The [catch] block the two registrations share. *)
Definition registration_catch {A} (error : Error) : M A :=
  if String.eqb (message error) "No signer available"
  then throw (new_Error msg_connection_failed)
  else throw error.

(** [registerAsEmployer(name = 'Employer')]; [None] is the omitted
    argument. *)
Definition registerAsEmployer (name : option string) : M bool :=
  let name := default "Employer" name in
  try_catch
    (ensure_signer ;;;
     signer <- gets has_signer ;;
     if negb signer then throw (new_Error msg_no_connection)
     else
       networkStatus <- checkNetwork ;;
       if negb (ns_valid networkStatus)
       then throw (new_Error (msg_register_network (ns_name networkStatus)))
       else
         address <- signer_getAddress ;;
         r <- checkUserRole address ;;
         match role r with
         | Some employer => throw (new_Error msg_already_employer)
         | Some employee => throw (new_Error msg_employee_not_employer)
         | None =>
             employerDB.add
               {| ei_address := address;
                  ei_name := Some (or_else (trim name) "Employer");
                  ei_lastLogin := None |} ;;;
             ret true
         end)
    registration_catch.

(** [registerAsEmployee(employerAddress, skipEmployerCheck = false)] *)
Definition registerAsEmployee (employerAddress : string) (skipEmployerCheck : bool)
  : M bool :=
  try_catch
    (match getAddress employerAddress with
     | None => throw (new_Error msg_invalid_employer)
     | Some employerAddress =>
         ensure_signer ;;;
         signer <- gets has_signer ;;
         if negb signer then throw (new_Error msg_no_connection)
         else
           networkStatus <- checkNetwork ;;
           if negb (ns_valid networkStatus)
           then throw (new_Error (msg_register_network (ns_name networkStatus)))
           else
             address <- signer_getAddress ;;
             if String.eqb (toLowerCase address) (toLowerCase employerAddress)
             then throw (new_Error msg_self_employment)
             else
               r <- checkUserRole address ;;
               match role r with
               | Some employee => throw (new_Error msg_already_employee)
               | Some employer => throw (new_Error msg_employer_not_employee)
               | None =>
                   (if skipEmployerCheck then ret tt
                    else
                      employerData <- employerDB.get employerAddress ;;
                      match employerData with
                      | None => throw (new_Error msg_employer_not_found)
                      | Some _ => ret tt
                      end) ;;;
                   employeeDB.add
                     {| ni_address := address;
                        ni_name := "";
                        ni_employerAddress := employerAddress;
                        ni_amount := "0";
                        ni_schedule := "monthly";
                        ni_lastPaid := None |} ;;;
                   ret true
               end
     end)
    registration_catch.

Definition msg_switch_rejected : string :=
  "You rejected the network switch request. Please approve the network switch to continue.".
Definition msg_unsupported_chain (chainId : Z) : string :=
  "Network with chainId " +:+ decimal chainId +:+ " is not supported. Please contact support.".
Definition msg_add_failed (reason : string) : string :=
  "Failed to add network: " +:+ or_else reason "Unknown error"
  +:+ ". Please try adding the network manually in your wallet.".
Definition msg_switch_failed (reason : string) : string :=
  "Failed to switch network: " +:+ or_else reason "Unknown error"
  +:+ ". Please try switching networks manually in your wallet.".

(** The parameter of [wallet_addEthereumChain] built from the allow-list
    entry. *)
Definition add_chain_params (chainId : Z) (networkDetails : NetworkDetails)
  : AddChainParams :=
  {| ac_chainId := hexChainId chainId;
     ac_chainName := name networkDetails;
     ac_nativeCurrency := nativeCurrency networkDetails;
     ac_rpcUrls := rpcUrls networkDetails;
     ac_blockExplorerUrls := blockExplorerUrls networkDetails |}.

(** [switchNetwork(chainId = DEFAULT_NETWORK_ID)] *)
Definition switchNetwork (chainId : Z) : M bool :=
  eth <- gets ethereum ;;
  match eth with
  | None => throw (new_Error msg_no_wallet)
  | Some _ =>
      try_catch
        (current <- checkNetwork ;;
         if strict_eq (ns_chainId current) (Num chainId) then ret true
         else
           request_wallet_switchEthereumChain (hexChainId chainId) ;;;
           new <- checkNetwork ;;
           ret (strict_eq (ns_chainId new) (Num chainId)))
        (fun error =>
           if has_code error 4902 then
             try_catch
               (match assoc chainId SUPPORTED_NETWORKS with
                | None => throw (new_Error (msg_unsupported_chain chainId))
                | Some networkDetails =>
                    request_wallet_addEthereumChain (add_chain_params chainId networkDetails) ;;;
                    added <- checkNetwork ;;
                    ret (strict_eq (ns_chainId added) (Num chainId))
                end)
               (fun addError => throw (new_Error (msg_add_failed (message addError))))
           else if has_code error 4001 then throw (new_Error msg_switch_rejected)
           else throw (new_Error (msg_switch_failed (message error))))
  end.

End Program.

(** ** [useUserStore]: the persisted authentication state *)

Definition setAddress (a : option string) : M unit :=
  emit (Set_address a) ;;;
  modify (fun w =>
    with_user (mkUserState a (us_role (user w)) (us_isConnected (user w))
                           (us_isAuthenticated (user w)) (us_employerAddress (user w))) w).

Definition setRole (r : UserRole) : M unit :=
  emit (Set_role r) ;;;
  modify (fun w =>
    with_user (mkUserState (us_address (user w)) r (us_isConnected (user w))
                           (us_isAuthenticated (user w)) (us_employerAddress (user w))) w).

Definition setIsConnected (b : bool) : M unit :=
  emit (Set_isConnected b) ;;;
  modify (fun w =>
    with_user (mkUserState (us_address (user w)) (us_role (user w)) b
                           (us_isAuthenticated (user w)) (us_employerAddress (user w))) w).

Definition setIsAuthenticated (b : bool) : M unit :=
  emit (Set_isAuthenticated b) ;;;
  modify (fun w =>
    with_user (mkUserState (us_address (user w)) (us_role (user w)) (us_isConnected (user w))
                           b (us_employerAddress (user w))) w).

Definition setEmployerAddress (a : option string) : M unit :=
  emit (Set_employerAddress a) ;;;
  modify (fun w =>
    with_user (mkUserState (us_address (user w)) (us_role (user w)) (us_isConnected (user w))
                           (us_isAuthenticated (user w)) a) w).

(** [router.push(path)] *)
Definition router_push (path : string) : M unit := emit (Router_push path).

(** ** The [useAuthentication] hook *)

Module useAuthentication.

Definition setIsLoading (b : bool) : M unit :=
  modify (fun w => with_hook (mkHookState b (hk_error (hook w))) w).

Definition setError (e : option string) : M unit :=
  modify (fun w => with_hook (mkHookState (hk_isLoading (hook w)) e) w).

(** The [login] callback of the hook. *)
Definition login : M unit :=
  setIsLoading true ;;;
  setError None ;;;
  finally
    (try_catch
       (r <- login ;;
        setAddress (Some (lr_address r)) ;;;
        setRole (lr_role r) ;;;
        setIsConnected true ;;;
        setIsAuthenticated true ;;;
        (match lr_role r, lr_employerAddress r with
         | Some employee, Some employerAddress =>
             if truthy employerAddress then setEmployerAddress (Some employerAddress)
             else ret tt
         | _, _ => ret tt
         end) ;;;
        match lr_role r with
        | Some employer => router_push "/employer"
        | Some employee => router_push "/employee"
        | None => ret tt
        end)
       (fun error =>
          setError (Some (or_else (message error) "Failed to login")) ;;;
          throw error))
    (fun w => with_hook (mkHookState false (hk_error (hook w))) w).

End useAuthentication.

(** ** [useEmployeeStore] ([src/stores/useEmployeeStore.ts]) *)

Module useEmployeeStore.

(** [set({ ... })] merges into the store's state. *)
Definition set_state (f : EmployeeState -> EmployeeState) : M unit :=
  modify (fun w => with_employeeStore (f (employeeStore w)) w).

(** [new ethers.providers.Web3Provider(window.ethereum)] *)
Definition new_Web3Provider : M unit :=
  eth <- gets ethereum ;;
  match eth with
  | None => throw (new_Error "missing provider")
  | Some _ => ret tt
  end.

Definition registerAsEmployee (employerAddress : string) : M unit :=
  set_state (fun s => mkEmployeeState (es_employeeData s) true None) ;;;
  try_catch
    (new_Web3Provider ;;;
     address <- signer_getAddress ;;
     existingEmployee <- employeeDB.get address ;;
     match existingEmployee with
     | Some existing =>
         set_state (fun s => mkEmployeeState (Some existing) false (es_error s))
     | None =>
         now <- Date_now ;;
         let employeeData :=
           mkEmployee address "" employerAddress "0" "monthly" now None Active in
         employeeDB.add
           {| ni_address := address;
              ni_name := "";
              ni_employerAddress := employerAddress;
              ni_amount := "0";
              ni_schedule := "monthly";
              ni_lastPaid := None |} ;;;
         set_state (fun s => mkEmployeeState (Some employeeData) false (es_error s))
     end)
    (fun error =>
       set_state (fun s =>
         mkEmployeeState (es_employeeData s) false
           (Some (or_else (message error) "Failed to register as employee"))) ;;;
       throw error).

Definition fetchEmployeeData (address : string) : M unit :=
  set_state (fun s => mkEmployeeState (es_employeeData s) true None) ;;;
  try_catch
    (employeeData <- employeeDB.get address ;;
     match employeeData with
     | Some data =>
         set_state (fun s => mkEmployeeState (Some data) false (es_error s))
     | None =>
         set_state (fun s =>
           mkEmployeeState (es_employeeData s) false (Some "Employee data not found"))
     end)
    (fun error =>
       set_state (fun s =>
         mkEmployeeState (es_employeeData s) false
           (Some (or_else (message error) "Failed to fetch employee data")))).

(** [currentData ? { ...currentData, ...data } : null] *)
Definition merge_profile (currentData : option Employee) (data : EmployeePatch)
  : option Employee :=
  match currentData with
  | Some current => Some (employeeDB.merged current data)
  | None => None
  end.

Definition updateEmployeeProfile (data : EmployeePatch) : M unit :=
  set_state (fun s => mkEmployeeState (es_employeeData s) true None) ;;;
  try_catch
    (employeeDB.update data ;;;
     set_state (fun s =>
       mkEmployeeState (merge_profile (es_employeeData s) data) false (es_error s)))
    (fun error =>
       set_state (fun s =>
         mkEmployeeState (es_employeeData s) false
           (Some (or_else (message error) "Failed to update employee profile"))) ;;;
       throw error).

Definition clearState : M unit :=
  set_state (fun _ => mkEmployeeState None false None).

End useEmployeeStore.

(** ** [src/app/actions/employee-registration.ts] *)

Record EmployeeRegistrationData := mkEmployeeRegistrationData {
  rd_name : string;
  rd_address : string;
  rd_amount : string;
  rd_schedule : string
}.

Record RegistrationOutcome := mkRegistrationOutcome {
  success : bool;
  error : option string
}.

Definition handleEmployeeRegistration
  (employerAddress : string) (employeeData : EmployeeRegistrationData)
  : M RegistrationOutcome :=
  try_catch
    (employer_record <- employerDB.get employerAddress ;;
     (match employer_record with
      | Some _ => ret tt
      | None =>
          employerDB.add
            {| ei_address := employerAddress;
               ei_name := Some "Auto-registered Employer";
               ei_lastLogin := None |} ;;;
          ret tt
      end) ;;;
     useEmployeeStore.registerAsEmployee employerAddress ;;;
     try_catch
       (employeeDB.add
          {| ni_address := rd_address employeeData;
             ni_name := rd_name employeeData;
             ni_employerAddress := employerAddress;
             ni_amount := rd_amount employeeData;
             ni_schedule := rd_schedule employeeData;
             ni_lastPaid := None |} ;;;
        ret tt)
       (fun dbError => throw dbError) ;;;
     ret (mkRegistrationOutcome true None))
    (fun error =>
       ret (mkRegistrationOutcome false
              (Some ("Failed to register as employee: "
                     +:+ or_else (message error) "Registration failed")))).

(** ** [src/middleware.ts] *)

Record NextRequest := mkNextRequest {
  pathname : string;                 (* request.nextUrl.pathname *)
  cookies : gmap string string       (* cookie name to value *)
}.

(** [NextResponse.redirect(new URL(path, request.url))] or
    [NextResponse.next()]. *)
Inductive NextResponse : Type :=
| redirect (path : string)
| next.

Definition protectedRoutes : list string := ["/employer"; "/employee"].
Definition authRoutes : list string := ["/auth"; "/"].

(** Truthiness of [request.cookies.get(name)?.value]. *)
Definition truthy_opt (v : option string) : bool :=
  match v with
  | Some s => truthy s
  | None => false
  end.

(** [v === s] for a string or undefined [v]. *)
Definition equals (v : option string) (s : string) : bool :=
  match v with
  | Some s' => String.eqb s' s
  | None => false
  end.

Definition middleware (request : NextRequest) : NextResponse :=
  let path := pathname request in
  let authToken := cookies request !! "auth-token" in
  let userRole := cookies request !! "user-role" in
  (* the statements after the block of the protected routes *)
  let auth_pages :=
    if existsb (String.eqb path) authRoutes
       && truthy_opt authToken && truthy_opt userRole
    then redirect (if equals userRole "employer" then "/employer" else "/employee")
    else next in
  if existsb (fun route => startsWith path route) protectedRoutes then
    if negb (truthy_opt authToken) then redirect "/auth"
    else if startsWith path "/employer" && negb (equals userRole "employer")
    then redirect "/employee"
    else if startsWith path "/employee" && negb (equals userRole "employee")
    then redirect "/employer"
    else auth_pages
  else auth_pages.

(** ** Wallet events ([AuthService.setupEventListeners], [disconnect])

    The listener part of [AuthService] touches the fields [provider],
    [signer], [eventCallbacks] and [cleanupListeners], and the handlers
    attached to [window.ethereum].  A callback is a function object,
    known by its identity; what a callback does when it is called is not
    modelled: the calls [callback(event, data)] are recorded in the order
    they are made. *)

Inductive WalletEvent : Type :=
| disconnected
| accountChanged (account : string)
| networkChanged.

Definition Callback : Type := nat.

(** One call of [setupEventListeners]: the pair of closures
    [handleAccountsChanged], [handleChainChanged] it creates (numbered in
    the order of creation) and the callback it was called with.  The
    cleanup function of the call is determined by the two. *)
Record Setup := mkSetup {
  setup_id : nat;
  setup_callback : Callback
}.

Record Listeners := mkListeners {
  wallet_present : bool;                      (* window.ethereum is defined *)
  provider_set : bool;                        (* this.provider is not null *)
  signer_set : bool;                          (* this.signer is not null *)
  eventCallbacks : list Callback;             (* this.eventCallbacks *)
  cleanupListeners : option Setup;            (* this.cleanupListeners *)
  attached : list nat;                        (* the setups whose handlers window.ethereum holds *)
  setups : nat;                               (* the setups made so far *)
  delivered : list (Callback * WalletEvent)   (* the calls callback(event, data) *)
}.

(** [indexOf] followed by [splice(index, 1)], and [removeListener]: the
    first occurrence is removed. *)
Fixpoint remove_first (x : nat) (l : list nat) : list nat :=
  match l with
  | [] => []
  | y :: l' => if Nat.eqb x y then l' else y :: remove_first x l'
  end.

(** [this.eventCallbacks.forEach(callback => callback(event, data))] *)
Definition notifyCallbacks (event : WalletEvent) (l : Listeners) : Listeners :=
  mkListeners (wallet_present l) (provider_set l) (signer_set l)
    (eventCallbacks l) (cleanupListeners l) (attached l) (setups l)
    (delivered l ++ map (fun callback => (callback, event)) (eventCallbacks l)).

(** The cleanup function a setup returns. *)
Definition cleanup (s : Setup) (l : Listeners) : Listeners :=
  mkListeners (wallet_present l) (provider_set l) (signer_set l)
    (remove_first (setup_callback s) (eventCallbacks l))
    (cleanupListeners l)
    (if wallet_present l then remove_first (setup_id s) (attached l) else attached l)
    (setups l) (delivered l).

(** [setupEventListeners(callback)]; the result is the cleanup function,
    [None] standing for the empty function [() => {}]. *)
Definition setupEventListeners (callback : Callback) (l : Listeners)
  : option Setup * Listeners :=
  if negb (wallet_present l) then (None, l)
  else
    let s := mkSetup (setups l) callback in
    (Some s,
     mkListeners (wallet_present l) (provider_set l) (signer_set l)
       (eventCallbacks l ++ [callback])
       (Some s)
       (attached l ++ [setups l])
       (S (setups l)) (delivered l)).

(** Calling what [setupEventListeners] returned. *)
Definition call_cleanup (c : option Setup) (l : Listeners) : Listeners :=
  match c with
  | Some s => cleanup s l
  | None => l
  end.

(** [handleAccountsChanged(accounts)] of any setup *)
Definition handleAccountsChanged (accounts : list string) (l : Listeners) : Listeners :=
  match accounts with
  | [] =>
      notifyCallbacks disconnected
        (mkListeners (wallet_present l) false false (eventCallbacks l)
           (cleanupListeners l) (attached l) (setups l) (delivered l))
  | account0 :: _ => notifyCallbacks (accountChanged account0) l
  end.

(** [handleChainChanged()] of any setup *)
Definition handleChainChanged (l : Listeners) : Listeners :=
  notifyCallbacks networkChanged l.

(** The wallet emits [accountsChanged]: every attached handler runs, in
    the order of attachment. *)
Definition emit_accountsChanged (accounts : list string) (l : Listeners) : Listeners :=
  fold_left (fun l' _ => handleAccountsChanged accounts l') (attached l) l.

(** The wallet emits [chainChanged]. *)
Definition emit_chainChanged (l : Listeners) : Listeners :=
  fold_left (fun l' _ => handleChainChanged l') (attached l) l.

(** [disconnect()] *)
Definition disconnect (l : Listeners) : Listeners :=
  let l1 :=
    mkListeners (wallet_present l) false false (eventCallbacks l)
      (cleanupListeners l) (attached l) (setups l) (delivered l) in
  let l2 :=
    match cleanupListeners l1 with
    | Some s =>
        let l' := cleanup s l1 in
        mkListeners (wallet_present l') (provider_set l') (signer_set l')
          (eventCallbacks l') None (attached l') (setups l') (delivered l')
    | None => l1
    end in
  notifyCallbacks disconnected l2.

(** [logout()] *)
Definition logout (l : Listeners) : Listeners := disconnect l.

(** ** [Web3Provider]: [formatAddress] (in [src/lib/auth-service.ts]) *)

(** [s.substring(0, n)] *)
Fixpoint take_string (n : nat) (s : string) : string :=
  match n, s with
  | S n', String c s' => String c (take_string n' s')
  | _, _ => EmptyString
  end.

(** [s.substring(n)] *)
Fixpoint drop_string (n : nat) (s : string) : string :=
  match n, s with
  | S n', String _ s' => drop_string n' s'
  | _, _ => s
  end.

(** [formatAddress(address)]; [None] is null. *)
Definition formatAddress (address : option string) : string :=
  match address with
  | None => ""
  | Some address =>
      if truthy address then
        take_string 6 address +:+ "..."
        +:+ drop_string (String.length address - 4) address
      else ""
  end.

(** ** [RoleAuthentication] ([src/WEB3/roleAuthentication.ts])

    The role a wallet chose is kept in [localStorage] and in two cookies.
    The cookie jar maps a cookie name to the value the browser sends with
    every request of the site ([js-cookie] writes the value encoded and the
    server reads it decoded). *)

Record Browser := mkBrowser {
  localStorage : gmap string string;
  cookie_jar : gmap string string
}.

Module RoleAuthentication.

(** [`role_${address}`] *)
Definition role_key (address : string) : string := "role_" +:+ address.

(** The string a role is in the source. *)
Definition role_name (r : Role) : string :=
  match r with
  | employer => "employer"
  | employee => "employee"
  end.

(** [verifyRole(address)]: what [localStorage.getItem] returns. *)
Definition verifyRole (address : string) (b : Browser) : option string :=
  localStorage b !! role_key address.

(** [setRole(address, role)] *)
Definition setRole (address : string) (role : UserRole) (b : Browser) : Browser :=
  match role with
  | Some r =>
      {| localStorage := <[role_key address := role_name r]> (localStorage b);
         cookie_jar :=
           <["user-role" := role_name r]> (<["auth-token" := address]> (cookie_jar b)) |}
  | None => b
  end.

(** [logout()] *)
Definition logout (b : Browser) : Browser :=
  {| localStorage := localStorage b;
     cookie_jar := delete "user-role" (delete "auth-token" (cookie_jar b)) |}.

End RoleAuthentication.

(** The request the browser makes for [path]. *)
Definition browser_request (path : string) (b : Browser) : NextRequest :=
  {| pathname := path; cookies := cookie_jar b |}.

(** * Example worlds *)

Module Examples.

Definition alice : string := "0xAbC0000000000000000000000000000000000001".
Definition bob : string := "0xB0b0000000000000000000000000000000000002".
Definition carol : string := "0xCa70000000000000000000000000000000000003".

(** A wallet on the Pharos chain that grants every request and moves to
    the chain it is asked for. *)
Definition wallet_of (account : string) (chainIdHex : string) : Wallet :=
  {| accounts := Ok (Some [account]);
     accounts_refresh := Ok tt;
     signer_address := Ok account;
     chain := Ok chainIdHex;
     on_switch := fun c => Ok c;
     on_add := fun p => Ok (ac_chainId p) |}.

Definition empty_db : Database :=
  {| employers := ∅; employees := ∅; store_error := fun _ => None |}.

Definition acme : Employer := mkEmployer alice (Some "Acme") 1700000000000 None.

Definition bob_at_acme : Employee :=
  mkEmployee bob "Bob" alice "100" "monthly" 1700000000000 None Active.

(** Alice is an employer and Bob her employee. *)
Definition acme_db : Database :=
  {| employers := {[ alice := acme ]};
     employees := {[ bob := bob_at_acme ]};
     store_error := fun _ => None |}.

(** A second registration under Alice's address. *)
Definition acme_again : EmployerInput :=
  {| ei_address := alice; ei_name := Some "Acme Holdings"; ei_lastLogin := None |}.

Definition carol_input : EmployeeInput :=
  {| ni_address := carol;
     ni_name := "Carol";
     ni_employerAddress := alice;
     ni_amount := "250";
     ni_schedule := "weekly";
     ni_lastPaid := None |}.

Definition AbortError : Error := mkError (Some 20) "The transaction was aborted.".

(** The same records behind a database that cannot be opened. *)
Definition broken_db : Database :=
  {| employers := {[ alice := acme ]};
     employees := {[ bob := bob_at_acme ]};
     store_error := fun _ => Some AbortError |}.

Definition world_of (eth : option Wallet) (d : Database) : World :=
  {| ethereum := eth;
     has_provider := false;
     has_signer := false;
     idb := d;
     clock := 1700000000123;
     user := mkUserState None None false false None;
     employeeStore := mkEmployeeState None false None;
     hook := mkHookState false None;
     trace := [] |}.

Definition rejection : Error := mkError (Some 4001) "User rejected the request.".

(** A wallet whose user declines to share accounts. *)
Definition rejecting_wallet : Wallet :=
  {| accounts := Throw rejection;
     accounts_refresh := Ok tt;
     signer_address := Ok alice;
     chain := Ok "0x1";
     on_switch := fun c => Ok c;
     on_add := fun p => Ok (ac_chainId p) |}.

Definition unknown_chain : Error := mkError (Some 4902) "Unrecognized chain ID.".

(** A wallet on Ethereum that does not know the other chains yet and
    adds the ones it is given. *)
Definition fresh_wallet : Wallet :=
  {| accounts := Ok (Some [alice]);
     accounts_refresh := Ok tt;
     signer_address := Ok alice;
     chain := Ok "0x1";
     on_switch := fun c => Throw unknown_chain;
     on_add := fun p => Ok (ac_chainId p) |}.

Definition no_wallet_world : World := world_of None acme_db.
Definition fresh_world : World := world_of (Some fresh_wallet) acme_db.

(** Alice's wallet on Pharos, Bob's on Ethereum, Carol's on an unlisted
    chain (Optimism, 0xa). *)
Definition alice_world : World := world_of (Some (wallet_of alice "0xc352")) acme_db.
Definition bob_world : World := world_of (Some (wallet_of bob "0x1")) acme_db.
Definition carol_world : World := world_of (Some (wallet_of carol "0xa")) acme_db.
Definition rejecting_world : World := world_of (Some rejecting_wallet) acme_db.

(** Carol's wallet once she has moved it to Pharos. *)
Definition carol_pharos : World := world_of (Some (wallet_of carol "0xc352")) acme_db.

(** Alice's wallet before anyone has registered, and the form data with
    which she adds Bob as an employee. *)
Definition first_visit : World := world_of (Some (wallet_of alice "0xc352")) empty_db.

Definition bob_data : EmployeeRegistrationData :=
  {| rd_name := "Bob"; rd_address := bob; rd_amount := "100"; rd_schedule := "monthly" |}.

(** A request for the employer dashboard whose [auth-token] cookie is
    there but empty. *)
Definition empty_token_request : NextRequest :=
  {| pathname := "/employer";
     cookies := {[ "auth-token" := ""; "user-role" := "employer" ]} |}.

(** An employee, signed in, asks for the employer dashboard. *)
Definition employee_request : NextRequest :=
  {| pathname := "/employer/payroll";
     cookies := {[ "auth-token" := bob; "user-role" := "employee" ]} |}.

(** A signed-in request for the employer dashboard with no role cookie. *)
Definition token_only_request : NextRequest :=
  {| pathname := "/employer";
     cookies := {[ "auth-token" := alice ]} |}.

(** A wallet whose chain query is rejected. *)
Definition mute_wallet : Wallet :=
  {| accounts := Ok (Some [alice]);
     accounts_refresh := Ok tt;
     signer_address := Ok alice;
     chain := Throw (mkError (Some (-32603)) "Internal JSON-RPC error.");
     on_switch := fun c => Ok c;
     on_add := fun p => Ok (ac_chainId p) |}.

Definition mute_world : World := world_of (Some mute_wallet) acme_db.

(** The service before any listener is set up, in a browser with a
    wallet. *)
Definition no_listeners : Listeners :=
  {| wallet_present := true;
     provider_set := true;
     signer_set := true;
     eventCallbacks := [];
     cleanupListeners := None;
     attached := [];
     setups := 0;
     delivered := [] |}.

Definition fresh_browser : Browser := {| localStorage := ∅; cookie_jar := ∅ |}.

End Examples.

(** * Properties *)

Arguments parseInt16 : simpl never.
Arguments String.append : simpl never.
Arguments toLowerCase : simpl never.
Arguments getAddress : simpl never.
Arguments hexChainId : simpl never.
Arguments decimal : simpl never.
Arguments trim : simpl never.

(** Unfolds the primitive requests and the operations of [M]. *)
Ltac unfold_prims :=
  unfold employerDB.get, employeeDB.get, employerDB.add, employeeDB.add,
    employerDB.update, employeeDB.update,
    db_get_employers, db_get_employees, db_add_employers, db_add_employees,
    db_put_employers, db_put_employees,
    request_eth_chainId, request_eth_requestAccounts, provider_send_eth_accounts,
    signer_getAddress, request_wallet_switchEthereumChain,
    request_wallet_addEthereumChain, wallet_moves_to,
    with_wallet, reply, store_guard, emit, modify, gets,
    try_catch, finally, bind, ret, throw, Date_now in *.

(** Case analysis on the innermost scrutinee of the goal. *)
Ltac split_match :=
  match goal with
  | |- context [match ?x with _ => _ end] =>
      lazymatch x with
      | context [match _ with _ => _ end] => fail
      | _ => destruct x eqn:?
      end
  end.

Ltac run_all := repeat (split_match; cbn; try reflexivity).

(** ** Role resolution *)

(** C1. With the employers store answering, [checkUserRole] returns
    'employer' when that store holds a record under the address;
    otherwise, with the employees store answering, 'employee' and the
    [employerAddress] of the employee record under the address; otherwise
    the role null. *)
Theorem checkUserRole_resolves (w : World) (address : string) :
  store_error (idb w) Employers = None ->
  (employers (idb w) !! address = None -> store_error (idb w) Employees = None) ->
  fst (checkUserRole address w) =
    Ok (match employers (idb w) !! address with
        | Some _ => mkRoleInfo (Some employer) None
        | None =>
            match employees (idb w) !! address with
            | Some data => mkRoleInfo (Some employee) (Some (ee_employerAddress data))
            | None => mkRoleInfo None None
            end
        end).
Proof.
  intros Hemployers Hemployees.
  unfold checkUserRole. unfold_prims. cbn.
  rewrite Hemployers. cbn.
  destruct (employers (idb w) !! address) as [record|] eqn:Hlookup; cbn.
  - reflexivity.
  - rewrite (Hemployees eq_refl). cbn.
    destruct (employees (idb w) !! address); reflexivity.
Qed.

Lemma checkUserRole_resolves_witness :
  fst (checkUserRole Examples.bob (Examples.world_of None Examples.acme_db))
  = Ok (mkRoleInfo (Some employee) (Some Examples.alice))
  /\ fst (checkUserRole Examples.alice (Examples.world_of None Examples.acme_db))
     = Ok (mkRoleInfo (Some employer) None)
  /\ fst (checkUserRole Examples.carol (Examples.world_of None Examples.acme_db))
     = Ok (mkRoleInfo None None).
Proof.
  split; [|split].
  - exact (checkUserRole_resolves (Examples.world_of None Examples.acme_db)
             Examples.bob eq_refl (fun _ => eq_refl)).
  - exact (checkUserRole_resolves (Examples.world_of None Examples.acme_db)
             Examples.alice eq_refl (fun _ => eq_refl)).
  - exact (checkUserRole_resolves (Examples.world_of None Examples.acme_db)
             Examples.carol eq_refl (fun _ => eq_refl)).
Defined.

Arguments connectWallet : simpl never.
Arguments checkNetwork : simpl never.
Arguments checkUserRole : simpl never.
Arguments login : simpl never.

(** *** Storage failures *)

(** A lookup of [address] that [checkUserRole] performs is rejected. *)
Definition lookup_fails (d : Database) (address : string) : Prop :=
  (exists e, store_error d Employers = Some e)
  \/ (store_error d Employers = None /\ employers d !! address = None
      /\ exists e, store_error d Employees = Some e).

(** Both stores answer and neither holds a record under [address]. *)
Definition unregistered (d : Database) (address : string) : Prop :=
  store_error d Employers = None /\ store_error d Employees = None
  /\ employers d !! address = None /\ employees d !! address = None.

Lemma checkUserRole_total (address : string) (w : World) :
  exists r, fst (checkUserRole address w) = Ok r.
Proof.
  unfold checkUserRole. unfold_prims. cbn.
  destruct (store_error (idb w) Employers); cbn; [eauto|].
  destruct (employers (idb w) !! address); cbn; [eauto|].
  destruct (store_error (idb w) Employees); cbn; [eauto|].
  destruct (employees (idb w) !! address); cbn; eauto.
Qed.

Lemma checkUserRole_failure (address : string) (w : World) :
  lookup_fails (idb w) address ->
  fst (checkUserRole address w) = Ok (mkRoleInfo None None).
Proof.
  unfold checkUserRole. unfold_prims. cbn.
  intros [[e He] | (He & Hnone & e & Hee)]; rewrite He; cbn; [reflexivity|].
  rewrite Hnone. cbn. rewrite Hee. reflexivity.
Qed.

Lemma checkUserRole_unregistered (address : string) (w : World) :
  unregistered (idb w) address ->
  fst (checkUserRole address w) = Ok (mkRoleInfo None None).
Proof.
  intros (He & Hee & Hnone & Hnone').
  unfold checkUserRole. unfold_prims. cbn.
  rewrite He; cbn. rewrite Hnone; cbn. rewrite Hee; cbn. rewrite Hnone'.
  reflexivity.
Qed.

(** The wallet and network steps do not look at the database. *)
Lemma connectWallet_with_idb (d : Database) (w : World) :
  connectWallet (with_idb d w)
  = (fst (connectWallet w), with_idb d (snd (connectWallet w))).
Proof.
  unfold connectWallet, checkNetwork. unfold_prims.
  destruct w as [[wal|] p s db clk u es hk tr]; cbn; [|reflexivity].
  run_all.
Qed.

Lemma checkNetwork_with_idb (d : Database) (w : World) :
  checkNetwork (with_idb d w)
  = (fst (checkNetwork w), with_idb d (snd (checkNetwork w))).
Proof.
  unfold checkNetwork. unfold_prims.
  destruct w as [[wal|] p s db clk u es hk tr]; cbn; [|reflexivity].
  run_all.
Qed.

Lemma connectWallet_idb (w : World) : idb (snd (connectWallet w)) = idb w.
Proof.
  unfold connectWallet, checkNetwork. unfold_prims.
  destruct w as [[wal|] p s db clk u es hk tr]; cbn; [|reflexivity].
  run_all.
Qed.

Lemma checkNetwork_idb (w : World) : idb (snd (checkNetwork w)) = idb w.
Proof.
  unfold checkNetwork. unfold_prims.
  destruct w as [[wal|] p s db clk u es hk tr]; cbn; [|reflexivity].
  run_all.
Qed.

(** [login] once the database has been asked: it depends on the stores
    through the answer of [checkUserRole] alone. *)
Lemma login_role_null (w : World) :
  (forall address, fst (connectWallet w) = Ok address ->
     forall w', idb w' = idb w ->
       fst (checkUserRole address w') = Ok (mkRoleInfo None None)) ->
  fst (login w) =
    match fst (connectWallet w) with
    | Throw e =>
        Throw (if has_code e 4001 then new_Error msg_connection_rejected else e)
    | Ok _ =>
        let st := fst (checkNetwork (snd (connectWallet w))) in
        match st with
        | Ok st =>
            if ns_valid st then Throw (new_Error msg_not_registered)
            else Throw (new_Error (msg_login_network (ns_name st)))
        | Throw e => Throw e
        end
    end.
Proof.
  intros Hrole. unfold login. unfold try_catch at 1. unfold bind at 1.
  destruct (connectWallet w) as [[address|e] w1] eqn:Hconnect; cbn.
  - unfold bind at 1.
    pose proof (checkNetwork_idb w1) as Hidb1.
    pose proof (connectWallet_idb w) as Hidb. rewrite Hconnect in Hidb. cbn in Hidb.
    destruct (checkNetwork w1) as [[st|e] w2] eqn:Hnet; cbn in *.
    + destruct (ns_valid st); cbn.
      * unfold bind at 1.
        specialize (Hrole address eq_refl w2 ltac:(congruence)).
        destruct (checkUserRole address w2) as [r w3]. cbn in Hrole. subst r.
        reflexivity.
      * reflexivity.
    + unfold throw. destruct (has_code e 4001) eqn:Hcode; cbn.
      * exfalso. revert Hnet. unfold checkNetwork. unfold_prims.
        destruct w1 as [[wal|] p s db clk u es hk tr]; cbn; [|discriminate].
        destruct (chain wal); cbn; discriminate.
      * reflexivity.
  - unfold throw. destruct (has_code e 4001); reflexivity.
Qed.

(** C9. [checkUserRole] never throws; when a store lookup it performs is
    rejected it returns the role null, as it does for an address that
    is in neither store, and [login] gives the same outcome for a failing
    database as for one in which the connected wallet is unregistered. *)
Theorem checkUserRole_never_throws (w : World) (address : string) :
  (exists r, fst (checkUserRole address w) = Ok r)
  /\ (lookup_fails (idb w) address ->
      fst (checkUserRole address w) = Ok (mkRoleInfo None None))
  /\ (unregistered (idb w) address ->
      fst (checkUserRole address w) = Ok (mkRoleInfo None None))
  /\ (forall failing healthy : Database,
        (forall a, fst (connectWallet w) = Ok a ->
                   lookup_fails failing a /\ unregistered healthy a) ->
        fst (login (with_idb failing w)) = fst (login (with_idb healthy w))).
Proof.
  split; [apply checkUserRole_total|].
  split; [apply checkUserRole_failure|].
  split; [apply checkUserRole_unregistered|].
  intros failing healthy Hdbs.
  rewrite !login_role_null.
  - rewrite !connectWallet_with_idb. cbn [fst snd].
    destruct (fst (connectWallet w)); [|reflexivity].
    rewrite !checkNetwork_with_idb. reflexivity.
  - intros a Ha w' Hidb. rewrite connectWallet_with_idb in Ha. cbn in Ha.
    apply checkUserRole_unregistered. rewrite Hidb. apply (Hdbs a Ha).
  - intros a Ha w' Hidb. rewrite connectWallet_with_idb in Ha. cbn in Ha.
    apply checkUserRole_failure. rewrite Hidb. apply (Hdbs a Ha).
Qed.

Lemma checkUserRole_never_throws_witness :
  fst (checkUserRole Examples.alice (Examples.world_of None Examples.broken_db))
  = Ok (mkRoleInfo None None)
  /\ fst (login (with_idb Examples.broken_db
                   (Examples.world_of (Some (Examples.wallet_of Examples.alice "0xc352"))
                                      Examples.acme_db)))
     = fst (login (with_idb Examples.empty_db
                     (Examples.world_of (Some (Examples.wallet_of Examples.alice "0xc352"))
                                        Examples.acme_db))).
Proof.
  split.
  - apply (proj1 (proj2 (checkUserRole_never_throws
             (Examples.world_of None Examples.broken_db) Examples.alice))).
    left. exists Examples.AbortError. reflexivity.
  - apply (proj2 (proj2 (proj2 (checkUserRole_never_throws
             (Examples.world_of (Some (Examples.wallet_of Examples.alice "0xc352"))
                                Examples.acme_db) Examples.alice)))).
    intros a _. split.
    + left. exists Examples.AbortError. reflexivity.
    + unfold unregistered. cbn.
      split; [reflexivity|]. split; [reflexivity|]. split; apply lookup_empty.
Defined.

(** ** Network validation *)

Lemma includes_supported (c : number) :
  includes supported_chain_ids c = true
  <-> exists z, c = Num z /\ In z [1; 5; 11155111; 137; 80001; 50002].
Proof.
  destruct c as [|z]; cbn.
  - split; [discriminate | intros (z & Hz & _); discriminate].
  - rewrite !orb_true_iff, !Z.eqb_eq. split.
    + intros H. exists z. split; [reflexivity|]. cbn [In]. intuition congruence.
    + intros (z' & Hz & Hin). injection Hz as ->. cbn [In] in Hin.
      intuition congruence.
Qed.

Lemma network_at_listed (z : Z) (details : NetworkDetails) :
  In (z, details) SUPPORTED_NETWORKS -> network_at (Num z) = Some details.
Proof.
  cbn. intros H.
  repeat (destruct H as [H|H]; [injection H as <- <-; reflexivity|]).
  destruct H.
Qed.



(** ** Wallet connection *)

(** How the [catch] block of [connectWallet] maps a wallet error. *)
Definition connect_error (e : Error) : Error :=
  if has_code e 4001 then new_Error msg_connection_rejected
  else if has_code e (-32002) then new_Error msg_connection_pending
  else e.

Ltac run_connect w :=
  unfold connectWallet, checkNetwork, connect_error; unfold_prims;
  destruct w as [eth p s db clk u es hk tr]; cbn in *; subst; cbn.

(** C7. [connectWallet] throws without a wallet provider and on an empty
    account list; otherwise it returns the signer's address, or the first
    requested account when the signer lookup fails; an error of the wallet
    with code 4001 or -32002 becomes the connection-rejected or
    request-pending message, and any other error is rethrown. *)
Theorem connectWallet_outcomes (w : World) :
  (ethereum w = None ->
   fst (connectWallet w) = Throw (new_Error msg_no_wallet))
  /\ (forall wal, ethereum w = Some wal ->
        (accounts wal = Ok (Some []) \/ accounts wal = Ok None ->
         fst (connectWallet w) = Throw (new_Error msg_no_accounts))
        /\ (forall account0 rest,
              accounts wal = Ok (Some (account0 :: rest)) ->
              accounts_refresh wal = Ok tt ->
              (forall address,
                 signer_address wal = Ok address -> truthy address = true ->
                 fst (connectWallet w) = Ok address)
              /\ ((signer_address wal = Ok "" \/ exists e, signer_address wal = Throw e) ->
                  truthy account0 = true ->
                  fst (connectWallet w) = Ok account0))
        /\ (forall e,
              accounts wal = Throw e
              \/ ((exists account0 rest, accounts wal = Ok (Some (account0 :: rest)))
                  /\ accounts_refresh wal = Throw e) ->
              fst (connectWallet w) = Throw (connect_error e))).
Proof.
  split.
  - intros Heth. run_connect w. reflexivity.
  - intros wal Heth. split; [|split].
    + intros [Haccounts | Haccounts]; run_connect w; rewrite Haccounts; reflexivity.
    + intros account0 rest Haccounts Hrefresh. split.
      * intros address Hsigner Htruthy. run_connect w.
        rewrite Haccounts; cbn. rewrite Hrefresh; cbn. rewrite Hsigner; cbn.
        rewrite Htruthy; cbn. destruct (chain wal); reflexivity.
      * intros Hsigner Htruthy. run_connect w.
        rewrite Haccounts; cbn. rewrite Hrefresh; cbn.
        destruct Hsigner as [Hsigner | [e Hsigner]]; rewrite Hsigner; cbn;
          rewrite Htruthy; cbn; destruct (chain wal); reflexivity.
    + intros e [Haccounts | [(account0 & rest & Haccounts) Hrefresh]];
        run_connect w; rewrite Haccounts; cbn.
      * destruct (has_code e 4001); [reflexivity|].
        destruct (has_code e (-32002)); reflexivity.
      * rewrite Hrefresh; cbn.
        destruct (has_code e 4001); [reflexivity|].
        destruct (has_code e (-32002)); reflexivity.
Qed.

Lemma connectWallet_outcomes_witness :
  fst (connectWallet Examples.no_wallet_world) = Throw (new_Error msg_no_wallet)
  /\ fst (connectWallet Examples.alice_world) = Ok Examples.alice
  /\ fst (connectWallet Examples.rejecting_world)
     = Throw (new_Error msg_connection_rejected).
Proof.
  split; [|split].
  - exact (proj1 (connectWallet_outcomes Examples.no_wallet_world) eq_refl).
  - exact (proj1 (proj1 (proj2 (proj2 (connectWallet_outcomes Examples.alice_world)
                                  (Examples.wallet_of Examples.alice "0xc352") eq_refl))
                    Examples.alice [] eq_refl eq_refl)
             Examples.alice eq_refl eq_refl).
  - exact (proj2 (proj2 (proj2 (connectWallet_outcomes Examples.rejecting_world)
                           Examples.rejecting_wallet eq_refl))
             Examples.rejection (or_introl eq_refl)).
Defined.

(** ** Network switching *)

Arguments assoc : simpl never.

Lemma strict_eq_true (a : number) (z : Z) : strict_eq a (Num z) = true <-> a = Num z.
Proof.
  destruct a as [|x]; cbn; [split; discriminate|].
  rewrite Z.eqb_eq. split; congruence.
Qed.

Lemma has_code_eq (e : Error) (c : Z) : has_code e c = true <-> code e = Some c.
Proof.
  unfold has_code. destruct (code e); [|split; discriminate].
  rewrite Z.eqb_eq. split; congruence.
Qed.

(** Brings a trace to the form [t ++ [e1; ...; en]] and closes the goal. *)
Ltac trace_done :=
  rewrite <- ?app_assoc; cbn [app];
  try (eexists; reflexivity); try reflexivity.

Ltac run_switch w :=
  unfold switchNetwork, checkNetwork; unfold_prims;
  destruct w as [eth p s db clk u es hk tr]; cbn in *; subst; cbn.



(** ** The login flow *)

Arguments includes : simpl never.
Arguments network_at : simpl never.

(** The step of the flow a request belongs to: 0 connect the wallet,
    1 validate the network, 2 resolve the role, 3 persist the
    authentication state, 4 redirect. *)
Definition phase (ev : Event) : nat :=
  match ev with
  | Rpc_requestAccounts | Rpc_accounts | Rpc_getAddress => 0
  | Rpc_chainId | Rpc_switchChain _ | Rpc_addChain _ => 1
  | Db_get _ _ | Db_add _ _ | Db_put _ _ => 2
  | Set_address _ | Set_role _ | Set_isConnected _
  | Set_isAuthenticated _ | Set_employerAddress _ => 3
  | Router_push _ => 4
  end.

(** The phases of [evs] never decrease, starting at [n] or later. *)
Fixpoint ordered_from (n : nat) (evs : list Event) : bool :=
  match evs with
  | [] => true
  | ev :: evs' => (n <=? phase ev)%nat && ordered_from (phase ev) evs'
  end.

(** [evs] runs through the phases [lo] to [hi] in order. *)
Definition within (lo hi : nat) (evs : list Event) : bool :=
  ordered_from lo evs && forallb (fun ev => (phase ev <=? hi)%nat) evs.

Definition linear (evs : list Event) : bool := within 0 4 evs.

(** [m] adds to the trace a run through the phases [lo] to [hi]. *)
Definition emits {A} (m : M A) (lo hi : nat) : Prop :=
  forall w, exists evs,
    trace (snd (m w)) = trace w ++ evs /\ within lo hi evs = true.

Lemma ordered_from_le (n m : nat) (evs : list Event) :
  (n <= m)%nat -> ordered_from m evs = true -> ordered_from n evs = true.
Proof.
  destruct evs as [|ev evs]; cbn; [reflexivity|].
  rewrite !andb_true_iff, !Nat.leb_le. intros Hle [Hm Hrest]. split; [lia|assumption].
Qed.

Lemma within_app (lo mid hi : nat) (a b : list Event) :
  (lo <= mid <= hi)%nat ->
  within lo mid a = true -> within mid hi b = true ->
  within lo hi (a ++ b) = true.
Proof.
  unfold within. revert lo. induction a as [|ev a IH]; intros lo Hle; cbn.
  - rewrite !andb_true_iff. intros _ [Hb Hb']. split; [|assumption].
    apply (ordered_from_le lo mid); [lia|assumption].
  - rewrite !andb_true_iff, !Nat.leb_le. intros [[Hlo Ha] [Hev Ha']] Hb.
    specialize (IH (phase ev) ltac:(lia)).
    rewrite !andb_true_iff in IH.
    destruct IH as [IH1 IH2]; [split; assumption|assumption|].
    repeat split; try assumption; lia.
Qed.

Lemma within_weaken (lo lo' hi hi' : nat) (evs : list Event) :
  (lo' <= lo)%nat -> (hi <= hi')%nat ->
  within lo hi evs = true -> within lo' hi' evs = true.
Proof.
  unfold within. rewrite !andb_true_iff. intros Hlo Hhi [Hord Hall]. split.
  - apply (ordered_from_le lo' lo); assumption.
  - rewrite forallb_forall in *. intros ev Hin. specialize (Hall ev Hin).
    rewrite Nat.leb_le in *. lia.
Qed.

Lemma within_bound (lo hi : nat) (evs : list Event) (ev : Event) :
  within lo hi evs = true -> In ev evs -> (phase ev <= hi)%nat.
Proof.
  unfold within. rewrite andb_true_iff, forallb_forall. intros [_ Hall] Hin.
  apply Nat.leb_le. apply Hall, Hin.
Qed.

Lemma emits_bind {A B} (m : M A) (k : A -> M B) (lo mid hi : nat) :
  (lo <= mid <= hi)%nat ->
  emits m lo mid -> (forall a, emits (k a) mid hi) -> emits (bind m k) lo hi.
Proof.
  intros Hle Hm Hk w. unfold bind.
  destruct (Hm w) as (evs1 & Htrace1 & Hin1).
  destruct (m w) as [[a|e] w1]; cbn in *.
  - destruct (Hk a w1) as (evs2 & Htrace2 & Hin2).
    exists (evs1 ++ evs2). split.
    + rewrite Htrace2, Htrace1, app_assoc. reflexivity.
    + apply (within_app lo mid hi); assumption.
  - exists evs1. split; [assumption|].
    apply (within_weaken lo lo mid hi); [lia|lia|assumption].
Qed.

Lemma emits_try_catch {A} (m : M A) (h : Error -> M A) (lo mid hi : nat) :
  (lo <= mid <= hi)%nat ->
  emits m lo mid -> (forall e, emits (h e) mid hi) -> emits (try_catch m h) lo hi.
Proof.
  intros Hle Hm Hh w. unfold try_catch.
  destruct (Hm w) as (evs1 & Htrace1 & Hin1).
  destruct (m w) as [[a|e] w1]; cbn in *.
  - exists evs1. split; [assumption|].
    apply (within_weaken lo lo mid hi); [lia|lia|assumption].
  - destruct (Hh e w1) as (evs2 & Htrace2 & Hin2).
    exists (evs1 ++ evs2). split.
    + rewrite Htrace2, Htrace1, app_assoc. reflexivity.
    + apply (within_app lo mid hi); assumption.
Qed.

Lemma emits_silent {A} (m : M A) (lo hi : nat) :
  (forall w, trace (snd (m w)) = trace w) -> emits m lo hi.
Proof.
  intros Hm w. exists []. rewrite Hm, app_nil_r. split; reflexivity.
Qed.

Lemma emits_emit (ev : Event) (lo hi : nat) :
  (lo <= phase ev <= hi)%nat -> emits (emit ev) lo hi.
Proof.
  intros Hle w. exists [ev]. split; [reflexivity|].
  unfold within. cbn. rewrite !andb_true_r, andb_true_iff, !Nat.leb_le. lia.
Qed.

Lemma emits_weaken {A} (m : M A) (lo lo' hi hi' : nat) :
  (lo' <= lo)%nat -> (hi <= hi')%nat -> emits m lo hi -> emits m lo' hi'.
Proof.
  intros Hlo Hhi Hm w. destruct (Hm w) as (evs & Htrace & Hin).
  exists evs. split; [assumption|].
  apply (within_weaken lo lo' hi hi'); assumption.
Qed.

Lemma emits_finally {A} (m : M A) (f : World -> World) (lo hi : nat) :
  (forall w, trace (f w) = trace w) -> emits m lo hi -> emits (finally m f) lo hi.
Proof.
  intros Hf Hm w. unfold finally. destruct (Hm w) as (evs & Htrace & Hin).
  destruct (m w) as [r w1]. cbn in *. exists evs. rewrite Hf. auto.
Qed.

(** The requests, each in its phase. *)
Ltac emits_prim :=
  let w := fresh "w" in
  let eth := fresh "eth" in
  intros w; unfold_prims;
  destruct w as [eth ? ? ? ? ? ? ? ?]; cbn;
  try (destruct eth; cbn);
  repeat (split_match; cbn);
  first [ exists []; rewrite app_nil_r; split; reflexivity
        | eexists; split; [trace_done | reflexivity] ].

Lemma emits_requestAccounts : emits request_eth_requestAccounts 0 0.
Proof. emits_prim. Qed.

Lemma emits_send_accounts : emits provider_send_eth_accounts 0 0.
Proof. emits_prim. Qed.

Lemma emits_getAddress : emits signer_getAddress 0 0.
Proof. emits_prim. Qed.

Lemma emits_checkNetwork : emits checkNetwork 1 1.
Proof. unfold checkNetwork. emits_prim. Qed.

Lemma emits_checkUserRole (address : string) : emits (checkUserRole address) 2 2.
Proof. unfold checkUserRole. emits_prim. Qed.

Lemma emits_known {A} (m : M A) (lo lo' hi hi' : nat) :
  emits m lo hi -> (lo' <= lo)%nat -> (hi <= hi')%nat -> emits m lo' hi'.
Proof. intros Hm Hlo Hhi. apply (emits_weaken m lo lo' hi hi'); assumption. Qed.

Create HintDb emits_db.

(** Proves [emits m lo hi] along the structure of [m]: a sequence is split
    at the earliest phase its first part stays below. *)
Ltac emits_solve :=
  lazymatch goal with
  | |- emits (bind _ _) _ _ => emits_seq
  | |- emits (try_catch _ _) _ _ => emits_seq
  | |- emits (finally _ _) _ _ => apply emits_finally; [reflexivity | emits_solve]
  | |- emits (match ?x with _ => _ end) _ _ => destruct x; emits_solve
  | |- forall _, _ => intro; emits_solve
  | |- _ =>
      first [ apply emits_silent; reflexivity
            | apply emits_emit; cbn; lia
            | eapply emits_known; [solve [eauto with emits_db] | lia | lia] ]
  end
with emits_seq :=
  first [ emits_split 0%nat | emits_split 1%nat | emits_split 2%nat
        | emits_split 3%nat | emits_split 4%nat ]
with emits_split mid :=
  first [ apply (emits_bind _ _ _ mid _) | apply (emits_try_catch _ _ _ mid _) ];
  [ lia | solve [emits_solve] | emits_solve ].

#[local] Hint Resolve emits_requestAccounts emits_send_accounts emits_getAddress
  emits_checkNetwork emits_checkUserRole : emits_db.

Lemma emits_connectWallet : emits connectWallet 0 1.
Proof. unfold connectWallet. emits_solve. Qed.

#[local] Hint Resolve emits_connectWallet : emits_db.

Lemma emits_login : emits login 0 2.
Proof. unfold login. emits_solve. Qed.

#[local] Hint Resolve emits_login : emits_db.

Lemma emits_hook_login : emits useAuthentication.login 0 4.
Proof.
  unfold useAuthentication.login, useAuthentication.setIsLoading,
    useAuthentication.setError, setAddress, setRole, setIsConnected,
    setIsAuthenticated, setEmployerAddress, router_push.
  emits_solve.
Qed.

(** *** What the steps of the flow depend on *)

(** [m] neither reads nor writes what [upd] changes. *)
Definition commutes {A} (upd : World -> World) (m : M A) : Prop :=
  forall w, m (upd w) = (fst (m w), upd (snd (m w))).

Lemma commutes_bind {A B} (upd : World -> World) (m : M A) (k : A -> M B) :
  commutes upd m -> (forall a, commutes upd (k a)) -> commutes upd (bind m k).
Proof.
  intros Hm Hk w. unfold bind. rewrite Hm.
  destruct (m w) as [[a|e] w1]; cbn; [apply Hk | reflexivity].
Qed.

Lemma commutes_try_catch {A} (upd : World -> World) (m : M A) (h : Error -> M A) :
  commutes upd m -> (forall e, commutes upd (h e)) -> commutes upd (try_catch m h).
Proof.
  intros Hm Hh w. unfold try_catch. rewrite Hm.
  destruct (m w) as [[a|e] w1]; cbn; [reflexivity | apply Hh].
Qed.

Ltac commutes_solve :=
  lazymatch goal with
  | |- commutes _ (bind _ _) => apply commutes_bind; commutes_solve
  | |- commutes _ (try_catch _ _) => apply commutes_try_catch; commutes_solve
  | |- commutes _ (match ?x with _ => _ end) => destruct x; commutes_solve
  | |- forall _, _ => intro; commutes_solve
  | |- commutes _ _ =>
      first [ solve [auto]
            | let w := fresh "w" in
              intros w; unfold_prims; destruct w as [[?|] ? ? ? ? ? ? ? ?]; cbn;
              repeat (split_match; cbn); reflexivity ]
  end.

Lemma checkNetwork_hook (h : HookState) : commutes (with_hook h) checkNetwork.
Proof. unfold checkNetwork. commutes_solve. Qed.

Lemma connectWallet_hook (h : HookState) : commutes (with_hook h) connectWallet.
Proof.
  pose proof (checkNetwork_hook h). unfold connectWallet. commutes_solve.
Qed.

Lemma checkUserRole_hook (h : HookState) (address : string) :
  commutes (with_hook h) (checkUserRole address).
Proof. unfold checkUserRole. commutes_solve. Qed.

Lemma login_hook (h : HookState) : commutes (with_hook h) login.
Proof.
  pose proof (checkNetwork_hook h). pose proof (connectWallet_hook h).
  pose proof (checkUserRole_hook h). unfold login. commutes_solve.
Qed.

Lemma connectWallet_ethereum (w : World) :
  ethereum (snd (connectWallet w)) = ethereum w.
Proof.
  unfold connectWallet, checkNetwork. unfold_prims.
  destruct w as [[wal|] p s db clk u es hk tr]; cbn; [|reflexivity].
  run_all.
Qed.

Lemma checkNetwork_ethereum (w : World) :
  ethereum (snd (checkNetwork w)) = ethereum w.
Proof.
  unfold checkNetwork. unfold_prims.
  destruct w as [[wal|] p s db clk u es hk tr]; cbn; [|reflexivity].
  run_all.
Qed.

Lemma checkNetwork_same_wallet (w1 w2 : World) :
  ethereum w1 = ethereum w2 -> fst (checkNetwork w1) = fst (checkNetwork w2).
Proof.
  unfold checkNetwork. unfold_prims. intros Heth. rewrite Heth.
  destruct (ethereum w2) as [wal|] eqn:Heth2; cbn; [|reflexivity].
  rewrite ?Heth, ?Heth2. cbn. destruct (chain wal); reflexivity.
Qed.

Lemma checkUserRole_same_idb (address : string) (w1 w2 : World) :
  idb w1 = idb w2 -> fst (checkUserRole address w1) = fst (checkUserRole address w2).
Proof.
  destruct w1, w2. cbn. intros ->.
  unfold checkUserRole. unfold_prims. cbn. run_all.
Qed.

Lemma checkNetwork_total (w : World) : exists st, fst (checkNetwork w) = Ok st.
Proof.
  unfold checkNetwork. unfold_prims.
  destruct w as [[wal|] p s db clk u es hk tr]; cbn; [|eauto].
  destruct (chain wal); cbn; eauto.
Qed.

(** *** [login], step by step *)

Definition login_error (e : Error) : Error :=
  if has_code e 4001 then new_Error msg_connection_rejected else e.

Lemma login_unfold (w : World) :
  login w =
    match connectWallet w with
    | (Throw e, w1) => (Throw (login_error e), w1)
    | (Ok address, w1) =>
        match checkNetwork w1 with
        | (Throw e, w2) => (Throw (login_error e), w2)
        | (Ok st, w2) =>
            if ns_valid st then
              match checkUserRole address w2 with
              | (Throw e, w3) => (Throw (login_error e), w3)
              | (Ok r, w3) =>
                  match role r with
                  | None => (Throw (new_Error msg_not_registered), w3)
                  | Some _ =>
                      (Ok (mkLoginResult address (role r) (employerAddress r)), w3)
                  end
              end
            else (Throw (new_Error (msg_login_network (ns_name st))), w2)
        end
    end.
Proof.
  unfold login, login_error, try_catch, bind, throw, ret.
  destruct (connectWallet w) as [[address|e] w1];
    [|destruct (has_code e 4001); reflexivity].
  destruct (checkNetwork w1) as [[st|e] w2];
    [|destruct (has_code e 4001); reflexivity].
  destruct (ns_valid st); cbn; [|reflexivity].
  destruct (checkUserRole address w2) as [[r|e] w3];
    [|destruct (has_code e 4001); reflexivity].
  destruct (role r); reflexivity.
Qed.

Lemma login_unsupported_network (w : World) (st : NetworkStatus) :
  fst (checkNetwork w) = Ok st -> ns_valid st = false ->
  exists e evs,
    fst (login w) = Throw e
    /\ trace (snd (login w)) = trace w ++ evs
    /\ within 0 1 evs = true.
Proof.
  intros Hst Hvalid. rewrite login_unfold.
  destruct (emits_connectWallet w) as (evs1 & Htrace1 & Hin1).
  pose proof (connectWallet_ethereum w) as Heth.
  destruct (connectWallet w) as [[address|e] w1]; cbn in *.
  - destruct (emits_checkNetwork w1) as (evs2 & Htrace2 & Hin2).
    pose proof (checkNetwork_same_wallet w1 w Heth) as Hsame.
    rewrite Hst in Hsame.
    destruct (checkNetwork w1) as [r2 w2]. cbn in *. subst r2.
    rewrite Hvalid. eexists. exists (evs1 ++ evs2). split; [reflexivity|]. split.
    + cbn. rewrite Htrace2, Htrace1, app_assoc. reflexivity.
    + apply (within_app 0 1 1); [lia|assumption..].
  - eexists. exists evs1. auto.
Qed.

Lemma login_unregistered (w : World) (address : string) (r : RoleInfo) :
  fst (connectWallet w) = Ok address ->
  fst (checkUserRole address w) = Ok r -> role r = None ->
  exists e, fst (login w) = Throw e.
Proof.
  intros Hconnect Hrole Hnull. rewrite login_unfold.
  pose proof (connectWallet_idb w) as Hidb1.
  destruct (connectWallet w) as [r1 w1]. cbn in *. subst r1.
  pose proof (checkNetwork_idb w1) as Hidb2.
  destruct (checkNetwork w1) as [[st|e] w2]; cbn in *; [|eauto].
  destruct (ns_valid st); [|eauto].
  assert (fst (checkUserRole address w2) = Ok r) as Hrole2.
  { rewrite <- Hrole. apply checkUserRole_same_idb. congruence. }
  destruct (checkUserRole address w2) as [r3 w3]. cbn in *. subst r3.
  rewrite Hnull. eauto.
Qed.

Lemma login_role (w : World) (r : LoginResult) :
  fst (login w) = Ok r -> exists role0, lr_role r = Some role0.
Proof.
  rewrite login_unfold.
  destruct (connectWallet w) as [[address|e] w1]; [|discriminate].
  destruct (checkNetwork w1) as [[st|e] w2]; [|discriminate].
  destruct (ns_valid st); [|discriminate].
  destruct (checkUserRole address w2) as [[r3|e] w3]; [|discriminate].
  destruct (role r3) as [role0|] eqn:Hrole; [|discriminate].
  cbn. intros [= <-]. cbn. eauto.
Qed.

(** What the hook stores after a successful [login], and where it sends
    the user. *)
Definition persist_events (r : LoginResult) : list Event :=
  [ Set_address (Some (lr_address r)); Set_role (lr_role r);
    Set_isConnected true; Set_isAuthenticated true ]
  ++ match lr_role r, lr_employerAddress r with
     | Some employee, Some employerAddress =>
         if truthy employerAddress then [Set_employerAddress (Some employerAddress)]
         else []
     | _, _ => []
     end.

Definition redirect_events (r : LoginResult) : list Event :=
  match lr_role r with
  | Some employer => [Router_push "/employer"]
  | Some employee => [Router_push "/employee"]
  | None => []
  end.

(** Runs the [login] callback of the hook up to the outcome of
    [AuthService.login]. *)
Ltac hook_login_run w :=
  let res := fresh "res" in
  let Hres := fresh "Hres" in
  remember (useAuthentication.login w) as res eqn:Hres;
  unfold useAuthentication.login, useAuthentication.setIsLoading,
    useAuthentication.setError in Hres;
  unfold finally, try_catch in Hres; unfold bind at 1 2 3 in Hres;
  unfold modify in Hres; cbv beta iota in Hres; rewrite !login_hook in Hres;
  destruct (login w) as [[[address r ea]|e] w1]; cbn [fst snd] in *;
  unfold setAddress, setRole, setIsConnected, setIsAuthenticated,
    setEmployerAddress, router_push in Hres;
  unfold_prims;
  [destruct r as [[]|]; destruct ea as [ea|]; cbn in Hres;
   try (destruct (truthy ea) eqn:Htruthy; cbn in Hres)
  |cbn in Hres];
  subst res; cbn [fst snd].

Lemma hook_login_unfold (w : World) :
  fst (useAuthentication.login w)
  = match fst (login w) with
    | Ok _ => Ok tt
    | Throw e => Throw e
    end
  /\ trace (snd (useAuthentication.login w))
     = trace (snd (login w))
       ++ match fst (login w) with
          | Ok r => persist_events r ++ redirect_events r
          | Throw _ => []
          end.
Proof.
  hook_login_run w; unfold persist_events, redirect_events; cbn;
    rewrite ?Htruthy, ?app_nil_r; split; trace_done.
Qed.

(** What the hook has stored once [AuthService.login] returned [r]. *)
Definition persisted (r : LoginResult) (before after : UserState) : Prop :=
  us_address after = Some (lr_address r)
  /\ us_role after = lr_role r
  /\ us_isConnected after = true
  /\ us_isAuthenticated after = true
  /\ us_employerAddress after
     = match lr_role r, lr_employerAddress r with
       | Some employee, Some employerAddress =>
           if truthy employerAddress then Some employerAddress
           else us_employerAddress before
       | _, _ => us_employerAddress before
       end.

(** The lookups [checkUserRole] makes to find a role. *)
Definition lookup_events (address : string) (r : Role) : list Event :=
  match r with
  | employer => [Db_get Employers address]
  | employee => [Db_get Employers address; Db_get Employees address]
  end.

Lemma connectWallet_user (w : World) : user (snd (connectWallet w)) = user w.
Proof.
  unfold connectWallet, checkNetwork. unfold_prims.
  destruct w as [[wal|] p s db clk u es hk tr]; cbn; [|reflexivity].
  run_all.
Qed.

Lemma checkNetwork_user (w : World) : user (snd (checkNetwork w)) = user w.
Proof.
  unfold checkNetwork. unfold_prims.
  destruct w as [[wal|] p s db clk u es hk tr]; cbn; [|reflexivity].
  run_all.
Qed.

Lemma checkUserRole_user (address : string) (w : World) :
  user (snd (checkUserRole address w)) = user w.
Proof.
  unfold checkUserRole. unfold_prims. cbn.
  repeat (split_match; cbn; try reflexivity).
Qed.

Lemma login_user (w : World) : user (snd (login w)) = user w.
Proof.
  rewrite login_unfold.
  pose proof (connectWallet_user w) as H1.
  destruct (connectWallet w) as [[address|e] w1]; cbn [fst snd] in *; [|auto].
  pose proof (checkNetwork_user w1) as H2.
  destruct (checkNetwork w1) as [[st|e] w2]; cbn [fst snd] in *; [|congruence].
  destruct (ns_valid st); [|cbn; congruence].
  pose proof (checkUserRole_user address w2) as H3.
  destruct (checkUserRole address w2) as [[r|e] w3]; cbn [fst snd] in *;
    [|congruence].
  destruct (role r); cbn; congruence.
Qed.

Lemma hook_login_user (w : World) :
  match fst (login w) with
  | Ok r => persisted r (user w) (user (snd (useAuthentication.login w)))
  | Throw _ => user (snd (useAuthentication.login w)) = user w
  end.
Proof.
  pose proof (login_user w) as Huser. unfold persisted.
  hook_login_run w; cbn in *; rewrite ?Htruthy, ?Huser; auto 10.
Qed.

(** A connection that succeeds has made these four requests. *)
Lemma connectWallet_requests (w w1 : World) (address : string) :
  connectWallet w = (Ok address, w1) ->
  trace w1 = trace w ++ [Rpc_requestAccounts; Rpc_accounts; Rpc_getAddress; Rpc_chainId].
Proof.
  unfold connectWallet, checkNetwork. unfold_prims.
  destruct w as [[wal|] p s db clk u es hk tr]; cbn; [|intros H; discriminate H].
  repeat (split_match; cbn); intros H; try discriminate H;
    injection H as _ <-; cbn; trace_done.
Qed.

Lemma checkNetwork_requests (w w2 : World) (st : NetworkStatus) :
  checkNetwork w = (Ok st, w2) -> ns_valid st = true ->
  trace w2 = trace w ++ [Rpc_chainId].
Proof.
  unfold checkNetwork. unfold_prims.
  destruct w as [[wal|] p s db clk u es hk tr]; cbn.
  - repeat (split_match; cbn); intros H; injection H as <- <-; cbn;
      intros Hvalid; try discriminate Hvalid; reflexivity.
  - intros H; injection H as <- <-. intros Hvalid; discriminate Hvalid.
Qed.

Lemma checkUserRole_requests (w w3 : World) (address : string) (r : RoleInfo) (role0 : Role) :
  checkUserRole address w = (Ok r, w3) -> role r = Some role0 ->
  trace w3 = trace w ++ lookup_events address role0.
Proof.
  unfold checkUserRole. unfold_prims. cbn.
  repeat (split_match; cbn); intros H; injection H as <- <-; cbn;
    intros Hrole; try discriminate Hrole; injection Hrole as <-; cbn; trace_done.
Qed.

(** C3. The requests of the [login] callback run through the phases in
    the order connect, validate the network, resolve the role, persist,
    redirect.  [AuthService.login] is the three steps in that order, each
    on the state the one before left: it connects and obtains the address,
    then checks the network and throws on an unsupported one having made
    wallet requests only (no role lookup), then resolves the role and
    throws when it is null.  When [AuthService.login] throws, the callback
    throws the same error, makes no further request and stores nothing.
    When it returns, which it does with a role that is not null, the
    callback returns, having then stored the address, the role and the
    employer address and then issued the redirect for the role.  When the
    three steps succeed, the requests made are exactly: the four of the
    connection, the chain query, the role lookups, the stores and the
    redirect. *)
Theorem login_flow_linear (w : World) :
  exists evs : list Event,
    trace (snd (useAuthentication.login w)) = trace w ++ evs
    /\ linear evs = true
    /\ (forall st, fst (checkNetwork w) = Ok st -> ns_valid st = false ->
          (exists e, fst (useAuthentication.login w) = Throw e)
          /\ forall ev, In ev evs -> (phase ev <= 1)%nat)
    /\ (forall address r,
          fst (connectWallet w) = Ok address ->
          fst (checkUserRole address w) = Ok r -> role r = None ->
          exists e, fst (useAuthentication.login w) = Throw e)
    /\ (forall e, fst (useAuthentication.login w) = Throw e ->
          forall ev, In ev evs -> (phase ev <= 2)%nat)
    /\ (fst (useAuthentication.login w) = Ok tt ->
          exists r role0 before,
            fst (login w) = Ok r /\ lr_role r = Some role0
            /\ evs = before ++ persist_events r ++ redirect_events r
            /\ forall ev, In ev before -> (phase ev <= 2)%nat)
    /\ login w =
       match connectWallet w with
       | (Throw e, w1) => (Throw (login_error e), w1)
       | (Ok address, w1) =>
           match checkNetwork w1 with
           | (Throw e, w2) => (Throw (login_error e), w2)
           | (Ok st, w2) =>
               if ns_valid st then
                 match checkUserRole address w2 with
                 | (Throw e, w3) => (Throw (login_error e), w3)
                 | (Ok r, w3) =>
                     match role r with
                     | None => (Throw (new_Error msg_not_registered), w3)
                     | Some _ =>
                         (Ok (mkLoginResult address (role r) (employerAddress r)), w3)
                     end
                 end
               else (Throw (new_Error (msg_login_network (ns_name st))), w2)
           end
       end
    /\ (forall e, fst (login w) = Throw e ->
          fst (useAuthentication.login w) = Throw e
          /\ trace (snd (useAuthentication.login w)) = trace (snd (login w))
          /\ user (snd (useAuthentication.login w)) = user w)
    /\ (forall r, fst (login w) = Ok r ->
          fst (useAuthentication.login w) = Ok tt
          /\ trace (snd (useAuthentication.login w))
             = trace (snd (login w)) ++ persist_events r ++ redirect_events r
          /\ persisted r (user w) (user (snd (useAuthentication.login w))))
    /\ (forall address w1 st w2 r w3 role0,
          connectWallet w = (Ok address, w1) ->
          checkNetwork w1 = (Ok st, w2) -> ns_valid st = true ->
          checkUserRole address w2 = (Ok r, w3) -> role r = Some role0 ->
          let result := mkLoginResult address (Some role0) (employerAddress r) in
          fst (login w) = Ok result
          /\ fst (useAuthentication.login w) = Ok tt
          /\ evs = [Rpc_requestAccounts; Rpc_accounts; Rpc_getAddress; Rpc_chainId]
                   ++ [Rpc_chainId]
                   ++ lookup_events address role0
                   ++ persist_events result
                   ++ redirect_events result).
Proof.
  destruct (hook_login_unfold w) as [Hres Htrace].
  pose proof (hook_login_user w) as Huser.
  destruct (emits_login w) as (before & Hbefore & Hin).
  destruct (emits_hook_login w) as (evs & Hevs & Hlinear).
  assert (evs = before ++ match fst (login w) with
                          | Ok r => persist_events r ++ redirect_events r
                          | Throw _ => []
                          end) as Hsplit.
  { apply (app_inv_head (trace w)). rewrite <- Hevs, Htrace, Hbefore, app_assoc.
    reflexivity. }
  exists evs. split; [assumption|]. split; [assumption|].
  split; [|split; [|split; [|split; [|split; [|split; [|split]]]]]].
  - intros st Hst Hvalid.
    destruct (login_unsupported_network w st Hst Hvalid) as (e & evs0 & He & Htrace0 & Hin0).
    rewrite He in *. split; [eauto|].
    rewrite app_nil_r in Hsplit. subst evs.
    assert (before = evs0) as ->.
    { apply (app_inv_head (trace w)). congruence. }
    intros ev. apply (within_bound 0 1). assumption.
  - intros address r Hconnect Hrole Hnull.
    destruct (login_unregistered w address r Hconnect Hrole Hnull) as [e He].
    rewrite He in Hres. eauto.
  - intros e He. rewrite He in Hres.
    destruct (fst (login w)) as [r|e']; [discriminate|].
    rewrite app_nil_r in Hsplit. subst evs.
    intros ev. apply (within_bound 0 2). assumption.
  - intros Hok. rewrite Hok in Hres.
    destruct (fst (login w)) as [r|e'] eqn:Hlogin; [|discriminate].
    destruct (login_role w r Hlogin) as [role0 Hrole].
    exists r, role0, before. split; [reflexivity|]. split; [assumption|].
    split; [assumption|].
    intros ev. apply (within_bound 0 2). assumption.
  - apply login_unfold.
  - intros e He. rewrite He in *. rewrite app_nil_r in Htrace. auto.
  - intros r Hr. rewrite Hr in *. auto.
  - intros address w1 st w2 r w3 role0 Hconnect Hnetwork Hvalid Hlookup Hrole result.
    assert (login w = (Ok result, w3)) as Hlogin.
    { rewrite login_unfold, Hconnect, Hnetwork, Hvalid, Hlookup, Hrole.
      reflexivity. }
    rewrite Hlogin in *. cbn [fst snd] in *.
    split; [reflexivity|]. split; [assumption|].
    rewrite Hsplit.
    assert (before = [Rpc_requestAccounts; Rpc_accounts; Rpc_getAddress; Rpc_chainId]
                     ++ [Rpc_chainId] ++ lookup_events address role0) as ->.
    { apply (app_inv_head (trace w)). rewrite <- Hbefore.
      rewrite (checkUserRole_requests _ _ _ _ _ Hlookup Hrole),
        (checkNetwork_requests _ _ _ Hnetwork Hvalid),
        (connectWallet_requests _ _ _ Hconnect), <- ?app_assoc. reflexivity. }
    rewrite <- ?app_assoc. reflexivity.
Qed.

(** Bob, an employee of Alice, logs in on a supported network: the
    callback returns, and these are its requests. *)
Lemma login_flow_linear_witness :
  fst (useAuthentication.login Examples.bob_world) = Ok tt
  /\ trace (snd (useAuthentication.login Examples.bob_world))
     = [ Rpc_requestAccounts; Rpc_accounts; Rpc_getAddress; Rpc_chainId;
         Rpc_chainId;
         Db_get Employers Examples.bob; Db_get Employees Examples.bob;
         Set_address (Some Examples.bob); Set_role (Some employee);
         Set_isConnected true; Set_isAuthenticated true;
         Set_employerAddress (Some Examples.alice);
         Router_push "/employee" ].
Proof.
  destruct (login_flow_linear Examples.bob_world)
    as (evs & Htrace & _ & _ & _ & _ & _ & _ & _ & _ & Hsuccess).
  destruct (Hsuccess Examples.bob
              (snd (connectWallet Examples.bob_world))
              (mkNetworkStatus true (Num 1) "Ethereum Mainnet")
              (snd (checkNetwork (snd (connectWallet Examples.bob_world))))
              (mkRoleInfo (Some employee) (Some Examples.alice))
              (snd (checkUserRole Examples.bob
                      (snd (checkNetwork (snd (connectWallet Examples.bob_world))))))
              employee)
    as (_ & Hok & Hevs); try (vm_compute; reflexivity).
  split; [exact Hok|].
  rewrite Htrace, Hevs. vm_compute. reflexivity.
Defined.

(** Bob, an employee of Alice, logs in on a supported network. *)
Example login_flow_bob :
  trace (snd (useAuthentication.login Examples.bob_world))
  = [ Rpc_requestAccounts; Rpc_accounts; Rpc_getAddress; Rpc_chainId;
      Rpc_chainId;
      Db_get Employers Examples.bob; Db_get Employees Examples.bob;
      Set_address (Some Examples.bob); Set_role (Some employee);
      Set_isConnected true; Set_isAuthenticated true;
      Set_employerAddress (Some Examples.alice);
      Router_push "/employee" ].
Proof. vm_compute. reflexivity. Qed.

(** Carol's wallet is on a chain outside the allow-list: no lookup, no
    store, no redirect. *)
Example login_flow_carol :
  useAuthentication.login Examples.carol_world
  = (Throw (new_Error (msg_login_network "Unknown Network")),
     with_hook (mkHookState false
                  (Some (msg_login_network "Unknown Network")))
       (with_signer true (with_provider true
          (with_trace [ Rpc_requestAccounts; Rpc_accounts; Rpc_getAddress;
                        Rpc_chainId; Rpc_chainId ]
             Examples.carol_world)))).
Proof. vm_compute. reflexivity. Qed.

(** ** The persistence layer *)

Section Employers.

Variables (w : World) (r : EmployerInput).

Lemma employerDB_add_fresh :
  store_error (idb w) Employers = None ->
  employers (idb w) !! ei_address r = None ->
  fst (employerDB.add r w) = Ok (ei_address r)
  /\ fst (employerDB.get (ei_address r) (snd (employerDB.add r w)))
     = Ok (Some (mkEmployer (ei_address r) (ei_name r) (clock w) (ei_lastLogin r))).
Proof.
  intros Hstore Hfresh. unfold employerDB.stamped. unfold_prims. cbn.
  rewrite Hstore; cbn. rewrite Hfresh; cbn. rewrite Hstore; cbn.
  rewrite lookup_insert_eq. split; reflexivity.
Qed.

Lemma employerDB_add_taken (old : Employer) :
  employers (idb w) !! ei_address r = Some old ->
  (exists e, fst (employerDB.add r w) = Throw e)
  /\ idb (snd (employerDB.add r w)) = idb w.
Proof.
  intros Htaken. unfold employerDB.stamped. unfold_prims. cbn.
  destruct (store_error (idb w) Employers); cbn; [eauto|].
  rewrite Htaken; cbn. eauto.
Qed.

Lemma employerDB_add_other (a : string) :
  a <> ei_address r ->
  fst (employerDB.get a (snd (employerDB.add r w))) = fst (employerDB.get a w).
Proof.
  intros Hne. unfold employerDB.stamped. unfold_prims. cbn.
  destruct (store_error (idb w) Employers) eqn:Hstore; cbn; rewrite ?Hstore; cbn;
    [reflexivity|].
  destruct (employers (idb w) !! ei_address r); cbn; rewrite Hstore; cbn;
    [reflexivity|].
  rewrite lookup_insert_ne by congruence. reflexivity.
Qed.

Lemma employerDB_update_missing (p : EmployerPatch) :
  employers (idb w) !! ep_address p = None ->
  (exists e, fst (employerDB.update p w) = Throw e)
  /\ (store_error (idb w) Employers = None ->
      fst (employerDB.update p w) = Throw (new_Error "Employer not found"))
  /\ idb (snd (employerDB.update p w)) = idb w.
Proof.
  intros Hmissing. unfold_prims. cbn.
  destruct (store_error (idb w) Employers); cbn.
  - split; [eauto|]. split; [discriminate|reflexivity].
  - rewrite Hmissing; cbn. eauto.
Qed.

End Employers.

Section Employees.

Variables (w : World) (r : EmployeeInput).

Lemma employeeDB_add_fresh :
  store_error (idb w) Employees = None ->
  employees (idb w) !! ni_address r = None ->
  fst (employeeDB.add r w) = Ok (ni_address r)
  /\ fst (employeeDB.get (ni_address r) (snd (employeeDB.add r w)))
     = Ok (Some (mkEmployee (ni_address r) (ni_name r) (ni_employerAddress r)
                            (ni_amount r) (ni_schedule r) (clock w)
                            (ni_lastPaid r) Active)).
Proof.
  intros Hstore Hfresh. unfold employeeDB.stamped. unfold_prims. cbn.
  rewrite Hstore; cbn. rewrite Hfresh; cbn. rewrite Hstore; cbn.
  rewrite lookup_insert_eq. split; reflexivity.
Qed.

Lemma employeeDB_add_taken (old : Employee) :
  employees (idb w) !! ni_address r = Some old ->
  (exists e, fst (employeeDB.add r w) = Throw e)
  /\ idb (snd (employeeDB.add r w)) = idb w.
Proof.
  intros Htaken. unfold employeeDB.stamped. unfold_prims. cbn.
  destruct (store_error (idb w) Employees); cbn; [eauto|].
  rewrite Htaken; cbn. eauto.
Qed.

Lemma employeeDB_add_other (a : string) :
  a <> ni_address r ->
  fst (employeeDB.get a (snd (employeeDB.add r w))) = fst (employeeDB.get a w).
Proof.
  intros Hne. unfold employeeDB.stamped. unfold_prims. cbn.
  destruct (store_error (idb w) Employees) eqn:Hstore; cbn; rewrite ?Hstore; cbn;
    [reflexivity|].
  destruct (employees (idb w) !! ni_address r); cbn; rewrite Hstore; cbn;
    [reflexivity|].
  rewrite lookup_insert_ne by congruence. reflexivity.
Qed.

Lemma employeeDB_update_missing (p : EmployeePatch) :
  employees (idb w) !! np_address p = None ->
  (exists e, fst (employeeDB.update p w) = Throw e)
  /\ (store_error (idb w) Employees = None ->
      fst (employeeDB.update p w) = Throw (new_Error "Employee not found"))
  /\ idb (snd (employeeDB.update p w)) = idb w.
Proof.
  intros Hmissing. unfold_prims. cbn.
  destruct (store_error (idb w) Employees); cbn.
  - split; [eauto|]. split; [discriminate|reflexivity].
  - rewrite Hmissing; cbn. eauto.
Qed.

End Employees.

(** C6, as the code has it.  [add] is an insertion: for a record whose
    address is not yet a key of the store, [add] followed by [get] of that
    address returns the record extended with the registration date (and,
    for an employee, the status 'Active'); for an address that is taken
    [add] throws and leaves the database as it was.  [get] of any other
    address is unaffected by [add], and [update] for an address with no
    record throws and leaves the database as it was. *)
Theorem store_add_get_update :
  (forall w r,
     store_error (idb w) Employers = None ->
     employers (idb w) !! ei_address r = None ->
     fst (employerDB.add r w) = Ok (ei_address r)
     /\ fst (employerDB.get (ei_address r) (snd (employerDB.add r w)))
        = Ok (Some (mkEmployer (ei_address r) (ei_name r) (clock w) (ei_lastLogin r))))
  /\ (forall w r,
        store_error (idb w) Employees = None ->
        employees (idb w) !! ni_address r = None ->
        fst (employeeDB.add r w) = Ok (ni_address r)
        /\ fst (employeeDB.get (ni_address r) (snd (employeeDB.add r w)))
           = Ok (Some (mkEmployee (ni_address r) (ni_name r) (ni_employerAddress r)
                                  (ni_amount r) (ni_schedule r) (clock w)
                                  (ni_lastPaid r) Active)))
  /\ (forall w r old,
        employers (idb w) !! ei_address r = Some old ->
        (exists e, fst (employerDB.add r w) = Throw e)
        /\ idb (snd (employerDB.add r w)) = idb w)
  /\ (forall w r old,
        employees (idb w) !! ni_address r = Some old ->
        (exists e, fst (employeeDB.add r w) = Throw e)
        /\ idb (snd (employeeDB.add r w)) = idb w)
  /\ (forall w r a,
        a <> ei_address r ->
        fst (employerDB.get a (snd (employerDB.add r w))) = fst (employerDB.get a w))
  /\ (forall w r a,
        a <> ni_address r ->
        fst (employeeDB.get a (snd (employeeDB.add r w))) = fst (employeeDB.get a w))
  /\ (forall w p,
        employers (idb w) !! ep_address p = None ->
        (exists e, fst (employerDB.update p w) = Throw e)
        /\ (store_error (idb w) Employers = None ->
            fst (employerDB.update p w) = Throw (new_Error "Employer not found"))
        /\ idb (snd (employerDB.update p w)) = idb w)
  /\ (forall w p,
        employees (idb w) !! np_address p = None ->
        (exists e, fst (employeeDB.update p w) = Throw e)
        /\ (store_error (idb w) Employees = None ->
            fst (employeeDB.update p w) = Throw (new_Error "Employee not found"))
        /\ idb (snd (employeeDB.update p w)) = idb w).
Proof.
  split; [exact employerDB_add_fresh|].
  split; [exact employeeDB_add_fresh|].
  split; [exact employerDB_add_taken|].
  split; [exact employeeDB_add_taken|].
  split; [exact employerDB_add_other|].
  split; [exact employeeDB_add_other|].
  split; [exact employerDB_update_missing | exact employeeDB_update_missing].
Qed.

Lemma store_add_get_update_witness :
  fst (employeeDB.get Examples.carol
         (snd (employeeDB.add Examples.carol_input Examples.no_wallet_world)))
  = Ok (Some (mkEmployee Examples.carol "Carol" Examples.alice "250" "weekly"
                         1700000000123 None Active))
  /\ idb (snd (employerDB.add Examples.acme_again Examples.no_wallet_world))
     = Examples.acme_db.
Proof.
  split.
  - exact (proj2 (proj1 (proj2 store_add_get_update)
                    Examples.no_wallet_world Examples.carol_input eq_refl eq_refl)).
  - exact (proj2 (proj1 (proj2 (proj2 store_add_get_update))
                    Examples.no_wallet_world Examples.acme_again Examples.acme eq_refl)).
Defined.

(** C6 as stated fails for an address that already has a record: [add]
    is rejected, and [get] still returns the old record, not the one
    passed to [add]. *)
Lemma store_add_existing_counterexample :
  fst (employerDB.add Examples.acme_again Examples.no_wallet_world)
  = Throw ConstraintError
  /\ fst (employerDB.get Examples.alice
            (snd (employerDB.add Examples.acme_again Examples.no_wallet_world)))
     = Ok (Some Examples.acme)
  /\ Examples.acme
     <> employerDB.stamped Examples.acme_again (clock Examples.no_wallet_world).
Proof.
  split; [vm_compute; reflexivity|].
  split; [vm_compute; reflexivity|].
  vm_compute. intros H. discriminate H.
Qed.

(** ** The route guard *)

Lemma prefix_inv (p s : string) :
  String.prefix p s = true -> exists rest, s = p +:+ rest.
Proof.
  revert s. induction p as [|c p IH]; intros s; cbn.
  - exists s. reflexivity.
  - destruct s as [|c' s]; cbn; [intros H; discriminate H|].
    destruct (Ascii.ascii_dec c c') as [<-|]; [|intros H; discriminate H].
    intros H. destruct (IH s H) as [rest ->]. exists rest. reflexivity.
Qed.

Lemma employer_not_employee (path : string) :
  startsWith path "/employer" = true -> startsWith path "/employee" = false.
Proof.
  unfold startsWith. intros H. destruct (prefix_inv _ _ H) as [rest ->].
  reflexivity.
Qed.

Lemma equals_eq (v : option string) (s : string) :
  equals v s = true <-> v = Some s.
Proof.
  destruct v as [s'|]; cbn; [|split; discriminate].
  rewrite String.eqb_eq. split; congruence.
Qed.

Lemma equals_neq (v : option string) (s : string) :
  equals v s = false <-> v <> Some s.
Proof.
  rewrite <- equals_eq. destruct (equals v s); split; congruence.
Qed.

(** The path is under one of the two dashboards. *)
Definition protected (path : string) : bool :=
  startsWith path "/employer" || startsWith path "/employee".

Lemma protected_some (path : string) :
  existsb (fun route => startsWith path route) protectedRoutes = protected path.
Proof. unfold protected. cbn. rewrite orb_false_r. reflexivity. Qed.

Lemma auth_route (path : string) :
  existsb (String.eqb path) authRoutes = true <-> path = "/auth" \/ path = "/".
Proof.
  cbn. rewrite orb_false_r, orb_true_iff, !String.eqb_eq. reflexivity.
Qed.

(** C8, as the code has it.  A cookie counts as present when its value is
    not empty.  Under a dashboard path the guard redirects to '/auth'
    without an [auth-token], and to the other dashboard when the
    [user-role] cookie is not the role of the path; on '/auth' and '/'
    with both cookies it redirects to '/employer' for the role 'employer'
    and to '/employee' for any other; every other request passes
    through. *)
Theorem middleware_cases (request : NextRequest) :
  let path := pathname request in
  let authToken := cookies request !! "auth-token" in
  let userRole := cookies request !! "user-role" in
  (protected path = true -> truthy_opt authToken = false ->
   middleware request = redirect "/auth")
  /\ (startsWith path "/employer" = true -> truthy_opt authToken = true ->
      userRole <> Some "employer" ->
      middleware request = redirect "/employee")
  /\ (startsWith path "/employee" = true -> truthy_opt authToken = true ->
      userRole <> Some "employee" ->
      middleware request = redirect "/employer")
  /\ (path = "/auth" \/ path = "/" ->
      truthy_opt authToken = true -> truthy_opt userRole = true ->
      middleware request
      = redirect (if equals userRole "employer" then "/employer" else "/employee"))
  /\ ((protected path = true ->
       truthy_opt authToken = true
       /\ (startsWith path "/employer" = true -> userRole = Some "employer")
       /\ (startsWith path "/employee" = true -> userRole = Some "employee")) ->
      (path = "/auth" \/ path = "/" ->
       truthy_opt authToken = false \/ truthy_opt userRole = false) ->
      middleware request = next).
Proof.
  intros path authToken userRole. unfold middleware.
  fold path authToken userRole. rewrite protected_some.
  split; [|split; [|split; [|split]]].
  - intros -> ->. reflexivity.
  - intros Hpath Htoken Hrole. unfold protected. rewrite Hpath, Htoken. cbn.
    apply equals_neq in Hrole. rewrite Hrole. reflexivity.
  - intros Hpath Htoken Hrole. unfold protected. rewrite Hpath, Htoken.
    rewrite orb_true_r. cbn.
    destruct (startsWith path "/employer") eqn:Hemployer.
    + apply employer_not_employee in Hemployer. congruence.
    + cbn. apply equals_neq in Hrole. rewrite Hrole. reflexivity.
  - intros Hpath Htoken Hrole.
    assert (protected path = false) as ->.
    { destruct Hpath as [Hpath | Hpath]; unfold path in *; rewrite Hpath;
        reflexivity. }
    apply auth_route in Hpath. rewrite Hpath, Htoken, Hrole. reflexivity.
  - intros Hprotected Hauth.
    assert ((if existsb (String.eqb path) authRoutes
                && truthy_opt authToken && truthy_opt userRole
             then redirect (if equals userRole "employer"
                            then "/employer" else "/employee")
             else next) = next) as Hrest.
    { destruct (existsb (String.eqb path) authRoutes) eqn:Hroute; [|reflexivity].
      apply auth_route in Hroute. destruct (Hauth Hroute) as [-> | ->];
        [reflexivity | rewrite andb_false_r; reflexivity]. }
    rewrite Hrest.
    destruct (protected path) eqn:Hp; [|reflexivity].
    destruct (Hprotected eq_refl) as (-> & Hemployer & Hemployee). cbn.
    destruct (startsWith path "/employer") eqn:He; cbn.
    + rewrite (proj2 (equals_eq _ _) (Hemployer eq_refl)). cbn.
      rewrite (employer_not_employee path He). reflexivity.
    + destruct (startsWith path "/employee") eqn:He'; cbn; [|reflexivity].
      rewrite (proj2 (equals_eq _ _) (Hemployee eq_refl)). reflexivity.
Qed.

Lemma middleware_cases_witness :
  middleware Examples.empty_token_request = redirect "/auth"
  /\ middleware Examples.employee_request = redirect "/employee".
Proof.
  split.
  - exact (proj1 (middleware_cases Examples.empty_token_request) eq_refl eq_refl).
  - refine (proj1 (proj2 (middleware_cases Examples.employee_request))
              eq_refl eq_refl _).
    vm_compute. intros H. discriminate H.
Defined.

(** C8 as stated fails for a cookie that is there with an empty value:
    the request carries an [auth-token] cookie and its [user-role] is the
    role of the dashboard it asks for, yet it is sent to '/auth' instead of
    passing through. *)
Lemma middleware_empty_token_counterexample :
  pathname Examples.empty_token_request = "/employer"
  /\ cookies Examples.empty_token_request !! "auth-token" = Some ""
  /\ cookies Examples.empty_token_request !! "user-role" = Some "employer"
  /\ middleware Examples.empty_token_request = redirect "/auth"
  /\ middleware Examples.empty_token_request <> next.
Proof.
  repeat (split; [vm_compute; reflexivity|]).
  vm_compute. intros H. discriminate H.
Qed.

(** ** Employee registration *)

Ltac each_char c := destruct c as [[] [] [] [] [] [] [] []].

Lemma lower_upper_char (c : ascii) : lower_char (upper_char c) = lower_char c.
Proof. each_char c; reflexivity. Qed.

Lemma lower_lower_char (c : ascii) : lower_char (lower_char c) = lower_char c.
Proof. each_char c; reflexivity. Qed.

Lemma lower_char_zero (c : ascii) : lower_char c = "0"%char -> c = "0"%char.
Proof. each_char c; vm_compute; intros H; solve [reflexivity | discriminate H]. Qed.

Lemma lower_char_x (c : ascii) :
  lower_char c = "x"%char -> c = "x"%char \/ c = "X"%char.
Proof.
  each_char c; vm_compute; intros H;
    solve [left; reflexivity | right; reflexivity | discriminate H].
Qed.

Lemma toLowerCase_cons (c : ascii) (s : string) :
  toLowerCase (String c s) = String (lower_char c) (toLowerCase s).
Proof. reflexivity. Qed.

Lemma toLowerCase_idem (s : string) : toLowerCase (toLowerCase s) = toLowerCase s.
Proof.
  induction s as [|c s IH]; [reflexivity|].
  rewrite !toLowerCase_cons, lower_lower_char, IH. reflexivity.
Qed.

Section Normalisation.

Variable keccak256 : string -> list Z.
Variable icapToHex : string -> option string.

Lemma checksum_chars_lower (hashed : list Z) (i : nat) (chars : string) :
  toLowerCase (checksum_chars hashed i chars) = toLowerCase chars.
Proof.
  revert i. induction chars as [|c chars IH]; intros i; [reflexivity|].
  cbn [checksum_chars]. rewrite !toLowerCase_cons, IH.
  destruct (8 <=? _); [rewrite lower_upper_char|]; reflexivity.
Qed.

Lemma getChecksumAddress_lower (rest : string) :
  toLowerCase (getChecksumAddress keccak256 ("0x" +:+ rest))
  = toLowerCase ("0x" +:+ rest).
Proof.
  unfold getChecksumAddress.
  change ("0x" +:+ rest) with (String "0" (String "x" rest)).
  rewrite !toLowerCase_cons. cbn [drop2].
  change ("0x" +:+ ?s) with (String "0" (String "x" s)).
  rewrite !toLowerCase_cons, checksum_chars_lower, toLowerCase_idem.
  reflexivity.
Qed.

(** Normalising an address written with the 0x prefix changes letter
    case only. *)
Lemma getAddress_lower (address result : string) :
  startsWith address "0x" = true ->
  getAddress keccak256 icapToHex address = Some result ->
  toLowerCase result = toLowerCase address.
Proof.
  unfold startsWith. intros Hprefix.
  destruct (prefix_inv _ _ Hprefix) as [rest ->].
  unfold getAddress. unfold startsWith. rewrite Hprefix.
  destruct (is_hex_address _).
  - destruct (_ && _); [discriminate|].
    intros [= <-]. apply getChecksumAddress_lower.
  - change (is_icap ("0x" +:+ rest)) with false. discriminate.
Qed.

(** An address that differs from a 0x-prefixed one by letter case only is
    either rejected or normalised to that address, up to case. *)
Lemma getAddress_same_wallet (address employerAddress result : string) :
  startsWith address "0x" = true ->
  toLowerCase address = toLowerCase employerAddress ->
  getAddress keccak256 icapToHex employerAddress = Some result ->
  toLowerCase address = toLowerCase result.
Proof.
  unfold startsWith at 1. intros Hprefix Hsame Hnormal.
  destruct (prefix_inv _ _ Hprefix) as [rest ->].
  destruct employerAddress as [|c1 [|c2 tail]]; try discriminate Hsame.
  change ("0x" +:+ rest) with (String "0" (String "x" rest)) in *.
  rewrite !toLowerCase_cons in Hsame.
  injection Hsame as H1 H2 Htail.
  symmetry in H1, H2. change (lower_char "0") with "0"%char in H1.
  change (lower_char "x") with "x"%char in H2.
  apply lower_char_zero in H1. subst c1.
  apply lower_char_x in H2. destruct H2 as [-> | ->].
  - assert (startsWith (String "0" (String "x" tail)) "0x" = true) as Hp
      by (destruct tail; reflexivity).
    rewrite (getAddress_lower _ _ Hp Hnormal).
    rewrite !toLowerCase_cons, Htail. reflexivity.
  - exfalso. revert Hnormal. unfold getAddress, is_hex_address.
    cbn [strip_0x is_icap forallb_string].
    change (is_hex "0") with true. change (is_hex "X") with false.
    rewrite andb_false_r. discriminate.
Qed.

Lemma getAddress_malformed (address : string) :
  is_hex_address address = false -> is_icap address = false ->
  getAddress keccak256 icapToHex address = None.
Proof. unfold getAddress. intros -> ->. reflexivity. Qed.

End Normalisation.

Arguments ensure_signer : simpl never.

Lemma ensure_signer_frame (w : World) :
  idb (snd (ensure_signer w)) = idb w
  /\ ethereum (snd (ensure_signer w)) = ethereum w.
Proof.
  unfold ensure_signer, gets, bind, ret.
  destruct (has_signer w); cbn; [auto|].
  pose proof (connectWallet_idb w). pose proof (connectWallet_ethereum w).
  destruct (connectWallet w) as [[address|e] w1]; cbn in *; auto.
Qed.

Lemma registration_catch_throws {A} (e : Error) (w : World) :
  exists e', @registration_catch A e w = (Throw e', w).
Proof.
  unfold registration_catch, throw.
  destruct (String.eqb _ _); eauto.
Qed.

Lemma try_registration_catch {A} (m : M A) (w : World) :
  (exists e, fst (m w) = Throw e) ->
  (exists e, fst (try_catch m registration_catch w) = Throw e)
  /\ snd (try_catch m registration_catch w) = snd (m w).
Proof.
  unfold try_catch. destruct (m w) as [[a|e] w1]; intros [e0 H]; cbn in *;
    [discriminate|].
  destruct (registration_catch_throws (A:=A) e w1) as [e' ->]. eauto.
Qed.

Section Registration.

Variable keccak256 : string -> list Z.
Variable icapToHex : string -> option string.

(** C10. [registerAsEmployee] throws, and leaves both stores as they
    were, when the address of the connected wallet equals
    [employerAddress] up to letter case (wallet addresses, as ethers
    returns them, start with 0x), and when [employerAddress] is not an
    address [getAddress] accepts; a string that is neither 40 hexadecimal
    digits with an optional 0x nor of the ICAP shape is not accepted. *)
Theorem registerAsEmployee_rejects :
  (forall (w : World) (wal : Wallet) (address employerAddress : string)
          (skipEmployerCheck : bool),
     ethereum w = Some wal ->
     signer_address wal = Ok address ->
     startsWith address "0x" = true ->
     toLowerCase address = toLowerCase employerAddress ->
     (exists e,
        fst (registerAsEmployee keccak256 icapToHex employerAddress
               skipEmployerCheck w) = Throw e)
     /\ idb (snd (registerAsEmployee keccak256 icapToHex employerAddress
                    skipEmployerCheck w)) = idb w)
  /\ (forall (w : World) (employerAddress : string) (skipEmployerCheck : bool),
        getAddress keccak256 icapToHex employerAddress = None ->
        registerAsEmployee keccak256 icapToHex employerAddress skipEmployerCheck w
        = (Throw (new_Error msg_invalid_employer), w))
  /\ (forall employerAddress : string,
        is_hex_address employerAddress = false ->
        is_icap employerAddress = false ->
        getAddress keccak256 icapToHex employerAddress = None).
Proof.
  split; [|split].
  - intros w wal address employerAddress skip Heth Hsigner Hprefix Hsame.
    unfold registerAsEmployee.
    rewrite (surjective_pairing (try_catch _ _ w)).
    match goal with
    | |- context [try_catch ?m registration_catch w] =>
        destruct (try_registration_catch m w) as [Hthrows ->]
    end; [|split; [cbn [fst]; assumption|]].
    all: destruct (getAddress keccak256 icapToHex employerAddress)
           as [normal|] eqn:Hnormal; [|cbn; solve [eauto | congruence]].
    all: pose proof (getAddress_same_wallet keccak256 icapToHex _ _ _
                       Hprefix Hsame Hnormal) as Hself.
    all: unfold bind, gets, throw, ret.
    all: destruct (ensure_signer_frame w) as [Hidb1 Heth1].
    all: destruct (ensure_signer w) as [[[]|e] w1]; cbn [fst snd] in *;
           [|solve [eauto | congruence]].
    all: destruct (has_signer w1); cbn [negb fst snd]; [|solve [eauto | congruence]].
    all: pose proof (checkNetwork_idb w1) as Hidb2.
    all: pose proof (checkNetwork_ethereum w1) as Heth2.
    all: destruct (checkNetwork w1) as [[st|e] w2]; cbn [fst snd] in *;
           [|solve [eauto | congruence]].
    all: destruct (ns_valid st); cbn [negb fst snd]; [|solve [eauto | congruence]].
    all: unfold signer_getAddress, with_wallet; rewrite Heth2, Heth1, Heth.
    all: unfold_prims; cbn; rewrite Hsigner; cbn.
    all: rewrite Hself, String.eqb_refl; cbn.
    all: solve [eauto | congruence].
  - intros w employerAddress skip Hnone. unfold registerAsEmployee.
    rewrite Hnone. reflexivity.
  - apply getAddress_malformed.
Qed.

End Registration.

Lemma registerAsEmployee_rejects_witness :
  (exists e,
     fst (registerAsEmployee (fun _ => []) (fun _ => None)
            "0xabc0000000000000000000000000000000000001" false
            Examples.alice_world) = Throw e)
  /\ registerAsEmployee (fun _ => []) (fun _ => None) "acme" false
       Examples.alice_world
     = (Throw (new_Error msg_invalid_employer), Examples.alice_world).
Proof.
  split.
  - refine (proj1 (proj1 (registerAsEmployee_rejects (fun _ => []) (fun _ => None))
              Examples.alice_world (Examples.wallet_of Examples.alice "0xc352")
              Examples.alice "0xabc0000000000000000000000000000000000001" false
              eq_refl eq_refl _ _)).
    + vm_compute. reflexivity.
    + vm_compute. reflexivity.
  - refine (proj1 (proj2 (registerAsEmployee_rejects (fun _ => []) (fun _ => None)))
              Examples.alice_world "acme" false _).
    vm_compute. reflexivity.
Defined.

(** With the self-employment shown on a concrete run: Alice names her
    own address, in lower case, as her employer. *)
Example registerAsEmployee_self :
  fst (registerAsEmployee (fun _ => []) (fun _ => None)
         "0xabc0000000000000000000000000000000000001" false Examples.alice_world)
  = Throw (new_Error msg_self_employment).
Proof. vm_compute. reflexivity. Qed.

(** ** One role per address *)

(** No address is a key of both stores. *)
Definition exclusive (d : Database) : Prop :=
  forall a, employers d !! a = None \/ employees d !! a = None.

Arguments checkUserRole : simpl never.

(** What [handleEmployeeRegistration] does to the stores when the
    connected wallet is the employer's, as it is when the add-employee
    form calls it: the employer's own address ends up in both stores. *)
Lemma handleEmployeeRegistration_registers_signer_twice
  (w : World) (wal : Wallet) (address : string) (data : EmployeeRegistrationData) :
  ethereum w = Some wal ->
  signer_address wal = Ok address ->
  store_error (idb w) Employers = None ->
  store_error (idb w) Employees = None ->
  employees (idb w) !! address = None ->
  let after := idb (snd (handleEmployeeRegistration address data w)) in
  is_Some (employers after !! address) /\ is_Some (employees after !! address).
Proof.
  intros Heth Hsigner Hers Hees Hfresh.
  unfold handleEmployeeRegistration, useEmployeeStore.registerAsEmployee,
    useEmployeeStore.new_Web3Provider, useEmployeeStore.set_state,
    employerDB.stamped, employeeDB.stamped.
  unfold_prims. destruct w as [eth p s db clk u es hk tr]. cbn in *. subst eth.
  rewrite Hers. cbn.
  destruct (employers db !! address) as [record|] eqn:Hemployer; cbn;
    rewrite ?Hers; cbn; rewrite ?Hemployer; cbn;
    rewrite Hsigner; cbn; rewrite Hees; cbn; rewrite Hfresh; cbn;
    rewrite Hees; cbn; rewrite Hfresh; cbn; rewrite Hees; cbn.
  all: destruct (decide (rd_address data = address)) as [Heq|Hne];
         [rewrite Heq, lookup_insert_eq
         |rewrite lookup_insert_ne by congruence;
          destruct (employees db !! rd_address data)]; cbn.
  all: split; rewrite ?Hemployer;
         repeat first [rewrite lookup_insert_eq
                      | rewrite lookup_insert_ne by congruence];
         eauto.
Qed.

Lemma exclusive_empty : exclusive Examples.empty_db.
Proof. intros a. left. apply lookup_empty. Qed.


(** * Further properties of the code *)

(** ** Registration through [AuthService] *)

Lemma registration_catch_frame {A} (m : M A) (w : World) :
  snd (try_catch m registration_catch w) = snd (m w)
  /\ (forall a, fst (try_catch m registration_catch w) = Ok a <-> fst (m w) = Ok a)
  /\ ((exists e, fst (try_catch m registration_catch w) = Throw e)
      <-> exists e, fst (m w) = Throw e).
Proof.
  unfold try_catch. destruct (m w) as [[a|e] w1]; cbn.
  - split; [reflexivity|]. split; [reflexivity|].
    split; intros [e He]; discriminate He.
  - destruct (registration_catch_throws (A:=A) e w1) as [e' ->]. cbn.
    split; [reflexivity|]. split; [split; discriminate|]. split; eauto.
Qed.

Lemma signer_getAddress_frame (w : World) :
  idb (snd (signer_getAddress w)) = idb w
  /\ ethereum (snd (signer_getAddress w)) = ethereum w
  /\ (forall address, fst (signer_getAddress w) = Ok address ->
        exists wal, ethereum w = Some wal /\ signer_address wal = Ok address).
Proof.
  unfold_prims. destruct w as [[wal|] p s db clk u es hk tr]; cbn.
  - split; [reflexivity|]. split; [reflexivity|]. eauto.
  - split; [reflexivity|]. split; [reflexivity|]. discriminate.
Qed.

Lemma checkUserRole_idb (address : string) (w : World) :
  idb (snd (checkUserRole address w)) = idb w.
Proof.
  unfold checkUserRole. unfold_prims. cbn.
  repeat (split_match; cbn; try reflexivity).
Qed.

Lemma checkUserRole_ethereum (address : string) (w : World) :
  ethereum (snd (checkUserRole address w)) = ethereum w.
Proof.
  unfold checkUserRole. unfold_prims. cbn.
  repeat (split_match; cbn; try reflexivity).
Qed.

(** With both stores answering, the role is read off the two lookups. *)
Lemma checkUserRole_healthy (address : string) (w : World) :
  store_error (idb w) Employers = None ->
  store_error (idb w) Employees = None ->
  exists r,
    fst (checkUserRole address w) = Ok r
    /\ role r = match employers (idb w) !! address, employees (idb w) !! address with
                | Some _, _ => Some employer
                | None, Some _ => Some employee
                | None, None => None
                end.
Proof.
  intros Hers Hees. unfold checkUserRole. unfold_prims. cbn.
  rewrite Hers; cbn.
  destruct (employers (idb w) !! address); cbn; [eauto|].
  rewrite Hees; cbn.
  destruct (employees (idb w) !! address); cbn; eauto.
Qed.

(** Both stores answer. *)
Definition healthy (d : Database) : Prop :=
  store_error d Employers = None /\ store_error d Employees = None.

(** The wallet's address has a record in one of the stores. *)
Definition registered (d : Database) (address : string) : Prop :=
  is_Some (employers d !! address) \/ is_Some (employees d !! address).

(** What a call of [registerAsEmployer] does to the database: nothing
    when it throws; otherwise it has stored one employer record under the
    signer's address, which had no record in either store. *)
Lemma registerAsEmployer_effect (w : World) (name : option string) :
  healthy (idb w) ->
  ((exists e, fst (registerAsEmployer name w) = Throw e)
   /\ idb (snd (registerAsEmployer name w)) = idb w)
  \/ (exists wal address record,
        fst (registerAsEmployer name w) = Ok true
        /\ ethereum w = Some wal /\ signer_address wal = Ok address
        /\ employers (idb w) !! address = None
        /\ employees (idb w) !! address = None
        /\ er_address record = address
        /\ er_name record = Some (or_else (trim (default "Employer" name)) "Employer")
        /\ idb (snd (registerAsEmployer name w))
           = set_employers (<[address := record]> (employers (idb w))) (idb w)).
Proof.
  intros [Hers Hees]. unfold registerAsEmployer.
  match goal with
  | |- context [try_catch ?m registration_catch w] =>
      destruct (registration_catch_frame m w) as (-> & Hok & Hthrow);
      rewrite Hthrow; setoid_rewrite (Hok true); clear Hok Hthrow
  end.
  unfold bind, gets, throw, ret.
  destruct (ensure_signer_frame w) as [Hidb1 Heth1].
  destruct (ensure_signer w) as [[[]|e] w1]; cbn [fst snd] in *;
    [|left; split; [eauto | congruence]].
  destruct (has_signer w1); cbn [negb fst snd];
    [|left; split; [eauto | congruence]].
  pose proof (checkNetwork_idb w1) as Hidb2.
  pose proof (checkNetwork_ethereum w1) as Heth2.
  destruct (checkNetwork w1) as [[st|e] w2]; cbn [fst snd] in *;
    [|left; split; [eauto | congruence]].
  destruct (ns_valid st); cbn [negb fst snd];
    [|left; split; [eauto | congruence]].
  destruct (signer_getAddress_frame w2) as (Hidb3 & Heth3 & Hsigner).
  destruct (signer_getAddress w2) as [[address|e] w3]; cbn [fst snd] in *;
    [|left; split; [eauto | congruence]].
  destruct (Hsigner address eq_refl) as (wal & Hwal & Haddress).
  pose proof (checkUserRole_idb address w3) as Hidb4.
  assert (idb w3 = idb w) as Hidb3' by congruence.
  destruct (checkUserRole_healthy address w3) as (r & Hr & Hrole);
    [congruence..|].
  destruct (checkUserRole address w3) as [r4 w4]; cbn [fst snd] in *. subst r4.
  rewrite Hidb3' in Hrole.
  assert (idb w4 = idb w) as Hidb4' by congruence.
  destruct (employers (idb w) !! address) as [x|] eqn:Hemployer.
  { rewrite Hrole. left. cbn. split; [eauto | congruence]. }
  destruct (employees (idb w) !! address) as [x|] eqn:Hemployee.
  { rewrite Hrole. left. cbn. split; [eauto | congruence]. }
  rewrite Hrole. right.
  exists wal, address.
  eexists (mkEmployer address _ (clock w4) None).
  unfold employerDB.stamped. unfold_prims. cbn.
  rewrite Hidb4', Hers; cbn. rewrite Hidb4', Hemployer; cbn.
  rewrite Hidb4'.
  repeat split; try reflexivity; congruence.
Qed.

Lemma exclusive_add_employer (d : Database) (address : string) (record : Employer) :
  exclusive d -> employees d !! address = None ->
  exclusive (set_employers (<[address := record]> (employers d)) d).
Proof.
  intros Hd Hfree a. cbn. destruct (decide (a = address)) as [->|Hne].
  - right. assumption.
  - rewrite lookup_insert_ne by congruence. apply Hd.
Qed.

Lemma exclusive_add_employee (d : Database) (address : string) (record : Employee) :
  exclusive d -> employers d !! address = None ->
  exclusive (set_employees (<[address := record]> (employees d)) d).
Proof.
  intros Hd Hfree a. cbn. destruct (decide (a = address)) as [->|Hne].
  - left. assumption.
  - rewrite lookup_insert_ne by congruence. apply Hd.
Qed.

Lemma registered_not_free (d : Database) (address : string) :
  registered d address ->
  employers d !! address = None -> employees d !! address = None -> False.
Proof.
  intros [[x Hx] | [x Hx]] H1 H2; congruence.
Qed.


Lemma exclusive_acme : exclusive Examples.acme_db.
Proof.
  intros a. unfold Examples.acme_db. cbn [employers employees].
  destruct (decide (a = Examples.alice)) as [->|Hne].
  - right. apply lookup_singleton_ne. intros H. discriminate H.
  - left. apply lookup_singleton_ne. congruence.
Qed.


Section EmployeeRegistration.

Variable keccak256 : string -> list Z.
Variable icapToHex : string -> option string.

(** What a call of [registerAsEmployee] does to the database: nothing
    when it throws; otherwise it has stored one employee record under the
    signer's address, which had no record in either store. *)
Lemma registerAsEmployee_effect
  (w : World) (employerAddress : string) (skipEmployerCheck : bool) :
  healthy (idb w) ->
  ((exists e, fst (registerAsEmployee keccak256 icapToHex employerAddress
                     skipEmployerCheck w) = Throw e)
   /\ idb (snd (registerAsEmployee keccak256 icapToHex employerAddress
                  skipEmployerCheck w)) = idb w)
  \/ (exists wal address normal record,
        fst (registerAsEmployee keccak256 icapToHex employerAddress
               skipEmployerCheck w) = Ok true
        /\ ethereum w = Some wal /\ signer_address wal = Ok address
        /\ getAddress keccak256 icapToHex employerAddress = Some normal
        /\ toLowerCase address <> toLowerCase normal
        /\ employers (idb w) !! address = None
        /\ employees (idb w) !! address = None
        /\ (skipEmployerCheck = false -> is_Some (employers (idb w) !! normal))
        /\ ee_address record = address
        /\ ee_employerAddress record = normal
        /\ ee_status record = Active
        /\ idb (snd (registerAsEmployee keccak256 icapToHex employerAddress
                       skipEmployerCheck w))
           = set_employees (<[address := record]> (employees (idb w))) (idb w)).
Proof.
  intros [Hers Hees]. unfold registerAsEmployee.
  match goal with
  | |- context [try_catch ?m registration_catch w] =>
      destruct (registration_catch_frame m w) as (-> & Hok & Hthrow);
      rewrite Hthrow; setoid_rewrite (Hok true); clear Hok Hthrow
  end.
  destruct (getAddress keccak256 icapToHex employerAddress) as [normal|] eqn:Hnormal;
    [|left; cbn; split; [eauto | congruence]].
  unfold bind, gets, throw, ret.
  destruct (ensure_signer_frame w) as [Hidb1 Heth1].
  destruct (ensure_signer w) as [[[]|e] w1]; cbn [fst snd] in *;
    [|left; split; [eauto | congruence]].
  destruct (has_signer w1); cbn [negb fst snd];
    [|left; split; [eauto | congruence]].
  pose proof (checkNetwork_idb w1) as Hidb2.
  pose proof (checkNetwork_ethereum w1) as Heth2.
  destruct (checkNetwork w1) as [[st|e] w2]; cbn [fst snd] in *;
    [|left; split; [eauto | congruence]].
  destruct (ns_valid st); cbn [negb fst snd];
    [|left; split; [eauto | congruence]].
  destruct (signer_getAddress_frame w2) as (Hidb3 & Heth3 & Hsigner).
  destruct (signer_getAddress w2) as [[address|e] w3]; cbn [fst snd] in *;
    [|left; split; [eauto | congruence]].
  destruct (Hsigner address eq_refl) as (wal & Hwal & Haddress).
  destruct (String.eqb (toLowerCase address) (toLowerCase normal)) eqn:Hself;
    [left; cbn; split; [eauto | congruence]|].
  apply String.eqb_neq in Hself.
  pose proof (checkUserRole_idb address w3) as Hidb4.
  assert (idb w3 = idb w) as Hidb3' by congruence.
  destruct (checkUserRole_healthy address w3) as (r & Hr & Hrole);
    [congruence..|].
  destruct (checkUserRole address w3) as [r4 w4]; cbn [fst snd] in *. subst r4.
  rewrite Hidb3' in Hrole.
  assert (idb w4 = idb w) as Hidb4' by congruence.
  destruct (employers (idb w) !! address) as [x|] eqn:Hemployer.
  { rewrite Hrole. left. cbn. split; [eauto | congruence]. }
  destruct (employees (idb w) !! address) as [x|] eqn:Hemployee.
  { rewrite Hrole. left. cbn. split; [eauto | congruence]. }
  rewrite Hrole.
  unfold employeeDB.stamped. unfold_prims.
  destruct skipEmployerCheck; cbn.
  - right. exists wal, address, normal.
    eexists (mkEmployee address _ normal _ _ (clock w4) None Active).
    rewrite Hidb4', Hees; cbn. rewrite Hidb4', Hemployee; cbn. rewrite Hidb4'.
    repeat split; try reflexivity; try congruence.
  - rewrite Hidb4', Hers; cbn. rewrite Hidb4'.
    destruct (employers (idb w) !! normal) as [boss|] eqn:Hboss; cbn.
    + right. exists wal, address, normal.
      eexists (mkEmployee address _ normal _ _ (clock w4) None Active).
      rewrite Hidb4', Hees; cbn. rewrite Hidb4', Hemployee; cbn. rewrite Hidb4'.
      repeat split; try reflexivity; try congruence; eauto.
    + left. split; [eauto | congruence].
Qed.


End EmployeeRegistration.


(** ** What logging in leaves alone *)

Lemma login_frame (w : World) :
  idb (snd (login w)) = idb w /\ ethereum (snd (login w)) = ethereum w.
Proof.
  rewrite login_unfold.
  pose proof (connectWallet_idb w) as Hidb1.
  pose proof (connectWallet_ethereum w) as Heth1.
  destruct (connectWallet w) as [[address|e] w1]; cbn [fst snd] in *; [|auto].
  pose proof (checkNetwork_idb w1) as Hidb2.
  pose proof (checkNetwork_ethereum w1) as Heth2.
  destruct (checkNetwork w1) as [[st|e] w2]; cbn [fst snd] in *;
    [|split; congruence].
  destruct (ns_valid st); [|split; cbn; congruence].
  pose proof (checkUserRole_idb address w2) as Hidb3.
  pose proof (checkUserRole_ethereum address w2) as Heth3.
  destruct (checkUserRole address w2) as [[r|e] w3]; cbn [fst snd] in *;
    [|split; congruence].
  destruct (role r); cbn; split; congruence.
Qed.

(** X3. Logging in reads only: neither [AuthService.login] nor the
    [login] callback of the hook changes a record of the database or the
    state of the wallet, whatever the outcome; the callback leaves the
    stored user state as it was when it throws. *)
Theorem login_reads_only (w : World) :
  idb (snd (login w)) = idb w
  /\ ethereum (snd (login w)) = ethereum w
  /\ idb (snd (useAuthentication.login w)) = idb w
  /\ ethereum (snd (useAuthentication.login w)) = ethereum w
  /\ (forall e, fst (useAuthentication.login w) = Throw e ->
        user (snd (useAuthentication.login w)) = user w
        /\ hk_error (hook (snd (useAuthentication.login w)))
           = Some (or_else (message e) "Failed to login")
        /\ hk_isLoading (hook (snd (useAuthentication.login w))) = false).
Proof.
  destruct (login_frame w) as [Hidb Heth].
  split; [assumption|]. split; [assumption|].
  pose proof (login_user w) as Huser.
  hook_login_run w; cbn in *;
    (split; [assumption|]); (split; [assumption|]);
    intros e0 H0; try discriminate H0.
  injection H0 as <-. auto.
Qed.

(** ** Chain identifiers as hexadecimal strings *)

Lemma hex_digit_ascii (c : ascii) :
  hex_digit c = Z.of_N <$> HexString.ascii_to_digit c.
Proof. each_char c; reflexivity. Qed.

(** On a string of hexadecimal digits the parser reads what the standard
    library's [HexString.Raw.to_N] reads. *)
Lemma parse_hex_digits_to_N (s : string) (n : N) :
  forallb_string is_hex s = true ->
  parse_hex_digits (Some (Z.of_N n)) s = Some (Z.of_N (HexString.Raw.to_N s n)).
Proof.
  revert n. induction s as [|c s IH]; intros n; cbn [forallb_string]; [reflexivity|].
  rewrite andb_true_iff. intros [Hc Hs]. cbn [parse_hex_digits HexString.Raw.to_N].
  unfold is_hex in Hc. rewrite hex_digit_ascii in *.
  destruct (HexString.ascii_to_digit c) as [v|]; [|discriminate Hc]. cbn.
  replace (16 * Z.of_N n + Z.of_N v) with (Z.of_N (v + 16 * n)) by lia.
  apply IH, Hs.
Qed.

Fixpoint of_pos_hex (p : positive) (rest : string) {struct p} :
  forallb_string is_hex rest = true ->
  forallb_string is_hex (HexString.Raw.of_pos p rest) = true.
Proof.
  intros Hrest.
  do 4 try destruct p as [p|p|]; cbn [HexString.Raw.of_pos];
    first [ apply of_pos_hex; cbn; exact Hrest | cbn; exact Hrest ].
Qed.

Lemma parse_hex_digits_of_pos (p : positive) :
  parse_hex_digits None (HexString.Raw.of_pos p "") = Some (Z.pos p).
Proof.
  assert (forallb_string is_hex (HexString.Raw.of_pos p "") = true) as Hhex
    by (apply of_pos_hex; reflexivity).
  pose proof (parse_hex_digits_to_N _ 0%N Hhex) as Hparse.
  rewrite HexString.Raw.to_N_of_pos in Hparse.
  cbn [HexString.Raw.to_N Z.of_N] in Hparse.
  destruct (HexString.Raw.of_pos p "") as [|c s]; [discriminate Hparse|].
  cbn [forallb_string] in Hhex. apply andb_true_iff in Hhex as [Hc _].
  unfold is_hex in Hc. cbn [parse_hex_digits default] in *.
  destruct (hex_digit c); [exact Hparse | discriminate Hc].
Qed.

Lemma trimStart_digit (s : string) : trimStart (String "0" s) = String "0" s.
Proof. reflexivity. Qed.

(** X4. The template [`0x${chainId.toString(16)}`] and [parseInt(_, 16)]
    are inverse on the chain identifiers from 0 up: the string
    [switchNetwork] sends for a chain is read back by [checkNetwork] as
    that chain.  For a negative number the string ("0x-5") reads as NaN. *)
Theorem hexChainId_round_trip (chainId : Z) :
  (0 <= chainId -> parseInt16 (hexChainId chainId) = Num chainId)
  /\ (chainId < 0 -> parseInt16 (hexChainId chainId) = NaN).
Proof.
  unfold hexChainId, toString16, parseInt16.
  destruct chainId as [|p|p]; (split; [intros Hle | intros Hlt]); try lia.
  - reflexivity.
  - change ("0x" +:+ HexString.Raw.of_pos p "")
      with (String "0" (String "x" (HexString.Raw.of_pos p ""))).
    rewrite trimStart_digit, parse_hex_digits_of_pos. reflexivity.
  - reflexivity.
Qed.

Lemma hexChainId_round_trip_witness :
  parseInt16 (hexChainId 11155111) = Num 11155111
  /\ parseInt16 (hexChainId (-5)) = NaN.
Proof.
  split.
  - apply (proj1 (hexChainId_round_trip 11155111)). lia.
  - apply (proj2 (hexChainId_round_trip (-5))). lia.
Defined.

(** ** What a result of [switchNetwork] says about the wallet *)

Arguments strict_eq : simpl never.


(** ** The route guard under redirects *)


(** The request the browser makes after a redirect: the new path with
    the same cookies. *)
Definition follow (request : NextRequest) : option NextRequest :=
  match middleware request with
  | redirect path => Some (mkNextRequest path (cookies request))
  | next => None
  end.

Fixpoint follow_n (n : nat) (request : NextRequest) : option NextRequest :=
  match n with
  | O => Some request
  | S n' =>
      match follow request with
      | Some request' => follow_n n' request'
      | None => None
      end
  end.

(** A signed-in request for a dashboard whose role cookie names neither
    role (it is absent, or holds another string). *)
Definition roleless (request : NextRequest) : Prop :=
  protected (pathname request) = true
  /\ truthy_opt (cookies request !! "auth-token") = true
  /\ cookies request !! "user-role" <> Some "employer"
  /\ cookies request !! "user-role" <> Some "employee".

Lemma roleless_follow (request : NextRequest) :
  roleless request ->
  exists request',
    follow request = Some request' /\ roleless request'
    /\ pathname request' <> pathname request.
Proof.
  intros (Hpath & Htoken & Hemployer & Hemployee).
  apply equals_neq in Hemployer as Hne1. apply equals_neq in Hemployee as Hne2.
  unfold follow, middleware. rewrite protected_some, Hpath, Htoken.
  cbn [negb]. rewrite Hne1, Hne2. cbn [negb]. rewrite !andb_true_r.
  unfold protected in Hpath.
  destruct (startsWith (pathname request) "/employer") eqn:He.
  - eexists. split; [reflexivity|]. split; [repeat split; assumption|]. cbn.
    intros Heq. rewrite <- Heq in He. discriminate He.
  - cbn in Hpath. rewrite Hpath.
    eexists. split; [reflexivity|]. split; [repeat split; assumption|]. cbn.
    intros Heq. rewrite <- Heq in Hpath. discriminate Hpath.
Qed.

(** X6. A request for a dashboard that carries an [auth-token] but whose
    [user-role] cookie is neither 'employer' nor 'employee' (the wallet
    provider sets the token without a role) is redirected to the other
    dashboard, and so is the request that follows: however many redirects
    the browser follows, the guard answers with another one. *)
Theorem middleware_redirect_loop (request : NextRequest) (n : nat) :
  roleless request ->
  exists request',
    follow_n n request = Some request' /\ roleless request'
    /\ exists path, middleware request' = redirect path
                    /\ path <> pathname request' /\ protected path = true.
Proof.
  revert request. induction n as [|n IH]; intros request Hroleless.
  - exists request. split; [reflexivity|]. split; [assumption|].
    destruct (roleless_follow request Hroleless) as (request' & Hfollow & Hnext & Hne).
    unfold follow in Hfollow.
    destruct (middleware request) as [path|]; [|discriminate Hfollow].
    injection Hfollow as <-. exists path. cbn in *.
    split; [reflexivity|]. split; [assumption|]. apply Hnext.
  - destruct (roleless_follow request Hroleless) as (request' & Hfollow & Hnext & _).
    cbn [follow_n]. rewrite Hfollow. apply IH, Hnext.
Qed.

Lemma middleware_redirect_loop_witness :
  exists request',
    follow_n 7 Examples.token_only_request = Some request'
    /\ roleless request'
    /\ exists path, middleware request' = redirect path
                    /\ path <> pathname request' /\ protected path = true.
Proof.
  apply (middleware_redirect_loop Examples.token_only_request 7).
  unfold roleless. split; [reflexivity|]. split; [reflexivity|].
  split; intros H; vm_compute in H; discriminate H.
Defined.

(** X7. The guard never redirects a request to the path it asked for,
    and its redirects go to '/auth', '/employer' or '/employee' only. *)
Theorem middleware_redirect_targets (request : NextRequest) (path : string) :
  middleware request = redirect path ->
  path <> pathname request
  /\ (path = "/auth" \/ path = "/employer" \/ path = "/employee").
Proof.
  unfold middleware. rewrite protected_some. unfold protected.
  destruct (startsWith (pathname request) "/employer") eqn:He;
    [pose proof (employer_not_employee _ He) as He'; rewrite He'|];
    cbn [orb].
  - destruct (truthy_opt (cookies request !! "auth-token")); cbn [negb andb].
    + destruct (equals (cookies request !! "user-role") "employer"); cbn [negb];
        [|intros [= <-]; split; [intros Heq; rewrite <- Heq in He; discriminate He | auto]].
      assert (existsb (String.eqb (pathname request)) authRoutes = false) as ->.
      { destruct (existsb _ authRoutes) eqn:Hroute; [|reflexivity].
        apply auth_route in Hroute as [Hroute | Hroute]; rewrite Hroute in He;
          discriminate He. }
      discriminate.
    + intros [= <-]. split; [intros Heq; rewrite <- Heq in He; discriminate He | auto].
  - destruct (startsWith (pathname request) "/employee") eqn:He'; cbn [andb].
    + destruct (truthy_opt (cookies request !! "auth-token")); cbn [negb andb].
      * destruct (equals (cookies request !! "user-role") "employee"); cbn [negb];
          [|intros [= <-]; split; [intros Heq; rewrite <- Heq in He'; discriminate He' | auto]].
        assert (existsb (String.eqb (pathname request)) authRoutes = false) as ->.
        { destruct (existsb _ authRoutes) eqn:Hroute; [|reflexivity].
          apply auth_route in Hroute as [Hroute | Hroute]; rewrite Hroute in He';
            discriminate He'. }
        discriminate.
      * intros [= <-]. split; [intros Heq; rewrite <- Heq in He'; discriminate He' | auto].
    + destruct (existsb (String.eqb (pathname request)) authRoutes) eqn:Hroute;
        cbn [andb]; [|discriminate].
      apply auth_route in Hroute.
      destruct (truthy_opt _ && truthy_opt _); [|discriminate].
      destruct (equals _ "employer"); intros [= <-];
        (split; [destruct Hroute as [-> | ->]; intros Heq; discriminate Heq | auto]).
Qed.

Lemma middleware_redirect_targets_witness :
  "/employee" <> pathname Examples.employee_request
  /\ ("/employee" = "/auth" \/ "/employee" = "/employer" \/ "/employee" = "/employee").
Proof.
  apply (middleware_redirect_targets Examples.employee_request "/employee").
  vm_compute. reflexivity.
Defined.

(** ** Single-field updates of [lib/db] *)

(** The record stored under [address], if any, carries that address (the
    stores' key path is [address]). *)
Definition employer_keyed (d : Database) (address : string) : Prop :=
  forall r, employers d !! address = Some r -> er_address r = address.

Definition employee_keyed (d : Database) (address : string) : Prop :=
  forall r, employees d !! address = Some r -> ee_address r = address.

(** X8. [employerDB.updateLastLogin] on a store that answers: for an
    address without a record it throws 'Employer not found' and leaves the
    database as it is; for an address with a record it returns the
    address and replaces that record by one whose [lastLogin] is the time
    of the call and whose other fields are as before; no other record and
    nothing in the employees store changes. *)
Theorem updateLastLogin_effect (w : World) (address : string) :
  store_error (idb w) Employers = None ->
  employer_keyed (idb w) address ->
  let w' := snd (employerDB.updateLastLogin address w) in
  match employers (idb w) !! address with
  | None =>
      fst (employerDB.updateLastLogin address w) = Throw (new_Error "Employer not found")
      /\ idb w' = idb w
  | Some existing =>
      fst (employerDB.updateLastLogin address w) = Ok address
      /\ employees (idb w') = employees (idb w)
      /\ exists updated,
           employers (idb w') = <[address := updated]> (employers (idb w))
           /\ er_lastLogin updated = Some (clock w)
           /\ er_address updated = address
           /\ er_name updated = er_name existing
           /\ er_registrationDate updated = er_registrationDate existing
  end.
Proof.
  intros Hers Hkeyed. unfold employerDB.updateLastLogin. unfold_prims. cbn.
  rewrite Hers. cbn.
  destruct (employers (idb w) !! address) as [existing|] eqn:Hget; cbn.
  - rewrite Hers. cbn. rewrite (Hkeyed existing Hget).
    split; [reflexivity|]. split; [reflexivity|].
    eexists. split; [reflexivity|]. cbn. auto.
  - split; reflexivity.
Qed.

Lemma updateLastLogin_effect_witness :
  let w' := snd (employerDB.updateLastLogin Examples.alice Examples.alice_world) in
  match employers (idb Examples.alice_world) !! Examples.alice with
  | None =>
      fst (employerDB.updateLastLogin Examples.alice Examples.alice_world)
      = Throw (new_Error "Employer not found")
      /\ idb w' = idb Examples.alice_world
  | Some existing =>
      fst (employerDB.updateLastLogin Examples.alice Examples.alice_world)
      = Ok Examples.alice
      /\ employees (idb w') = employees (idb Examples.alice_world)
      /\ exists updated,
           employers (idb w')
           = <[Examples.alice := updated]> (employers (idb Examples.alice_world))
           /\ er_lastLogin updated = Some (clock Examples.alice_world)
           /\ er_address updated = Examples.alice
           /\ er_name updated = er_name existing
           /\ er_registrationDate updated = er_registrationDate existing
  end.
Proof.
  apply (updateLastLogin_effect Examples.alice_world Examples.alice).
  - reflexivity.
  - intros r Hr. vm_compute in Hr. injection Hr as <-. reflexivity.
Defined.

(** X9. [employeeDB.updateStatus] followed by [employeeDB.updateLastPaid]
    on a store that answers: without a record both throw 'Employee not
    found' and the database stays as it is; with a record both return the
    address and the record ends with the new status and the time of the
    call as [lastPaid], the second update keeping what the first wrote;
    every other field, every other record and the employers store are as
    before. *)
Theorem employee_updates_compose (w : World) (address : string) (status : Status) :
  store_error (idb w) Employees = None ->
  employee_keyed (idb w) address ->
  let w1 := snd (employeeDB.updateStatus address status w) in
  let w2 := snd (employeeDB.updateLastPaid address w1) in
  match employees (idb w) !! address with
  | None =>
      fst (employeeDB.updateStatus address status w) = Throw (new_Error "Employee not found")
      /\ fst (employeeDB.updateLastPaid address w1) = Throw (new_Error "Employee not found")
      /\ idb w2 = idb w
  | Some existing =>
      fst (employeeDB.updateStatus address status w) = Ok address
      /\ fst (employeeDB.updateLastPaid address w1) = Ok address
      /\ employers (idb w2) = employers (idb w)
      /\ employees (idb w2)
         = <[address :=
               {| ee_address := address;
                  ee_name := ee_name existing;
                  ee_employerAddress := ee_employerAddress existing;
                  ee_amount := ee_amount existing;
                  ee_schedule := ee_schedule existing;
                  ee_registrationDate := ee_registrationDate existing;
                  ee_lastPaid := Some (clock w);
                  ee_status := status |}]> (employees (idb w))
  end.
Proof.
  intros Hees Hkeyed.
  unfold employeeDB.updateStatus, employeeDB.updateLastPaid. unfold_prims. cbn.
  rewrite Hees. cbn.
  destruct (employees (idb w) !! address) as [existing|] eqn:Hget; cbn.
  - rewrite Hees. cbn. rewrite Hees. cbn.
    rewrite (Hkeyed existing Hget), lookup_insert_eq. cbn.
    rewrite Hees. cbn.
    split; [reflexivity|]. split; [reflexivity|]. split; [reflexivity|].
    apply insert_insert_eq.
  - rewrite Hees. cbn. rewrite Hget. cbn. auto.
Qed.

Lemma employee_updates_compose_witness :
  let w1 := snd (employeeDB.updateStatus Examples.bob Inactive Examples.bob_world) in
  let w2 := snd (employeeDB.updateLastPaid Examples.bob w1) in
  match employees (idb Examples.bob_world) !! Examples.bob with
  | None =>
      fst (employeeDB.updateStatus Examples.bob Inactive Examples.bob_world)
      = Throw (new_Error "Employee not found")
      /\ fst (employeeDB.updateLastPaid Examples.bob w1)
         = Throw (new_Error "Employee not found")
      /\ idb w2 = idb Examples.bob_world
  | Some existing =>
      fst (employeeDB.updateStatus Examples.bob Inactive Examples.bob_world)
      = Ok Examples.bob
      /\ fst (employeeDB.updateLastPaid Examples.bob w1) = Ok Examples.bob
      /\ employers (idb w2) = employers (idb Examples.bob_world)
      /\ employees (idb w2)
         = <[Examples.bob :=
               {| ee_address := Examples.bob;
                  ee_name := ee_name existing;
                  ee_employerAddress := ee_employerAddress existing;
                  ee_amount := ee_amount existing;
                  ee_schedule := ee_schedule existing;
                  ee_registrationDate := ee_registrationDate existing;
                  ee_lastPaid := Some (clock Examples.bob_world);
                  ee_status := Inactive |}]> (employees (idb Examples.bob_world))
  end.
Proof.
  apply (employee_updates_compose Examples.bob_world Examples.bob Inactive).
  - reflexivity.
  - intros r Hr. vm_compute in Hr. injection Hr as <-. reflexivity.
Defined.

(** X10. Role resolution does not read the status: once
    [employeeDB.updateStatus] has set the record of an employee (who is
    not also an employer) to any status, 'Inactive' included,
    [checkUserRole] still answers with the role employee and the same
    employer address. *)
Theorem updateStatus_keeps_role
  (w : World) (address : string) (status : Status) (existing : Employee) :
  healthy (idb w) ->
  employers (idb w) !! address = None ->
  employees (idb w) !! address = Some existing ->
  ee_address existing = address ->
  fst (employeeDB.updateStatus address status w) = Ok address
  /\ fst (checkUserRole address (snd (employeeDB.updateStatus address status w)))
     = Ok (mkRoleInfo (Some employee) (Some (ee_employerAddress existing)))
  /\ fst (checkUserRole address w)
     = Ok (mkRoleInfo (Some employee) (Some (ee_employerAddress existing))).
Proof.
  intros [Hers Hees] Her Hee Hkey.
  unfold checkUserRole, employeeDB.updateStatus. unfold_prims. cbn.
  repeat (progress (rewrite ?Hees, ?Hers, ?Her, ?Hee, ?Hkey, ?lookup_insert_eq; cbn)).
  auto.
Qed.

Lemma updateStatus_keeps_role_witness :
  fst (employeeDB.updateStatus Examples.bob Inactive Examples.bob_world) = Ok Examples.bob
  /\ fst (checkUserRole Examples.bob
            (snd (employeeDB.updateStatus Examples.bob Inactive Examples.bob_world)))
     = Ok (mkRoleInfo (Some employee) (Some (ee_employerAddress Examples.bob_at_acme)))
  /\ fst (checkUserRole Examples.bob Examples.bob_world)
     = Ok (mkRoleInfo (Some employee) (Some (ee_employerAddress Examples.bob_at_acme))).
Proof.
  apply (updateStatus_keeps_role Examples.bob_world Examples.bob Inactive
           Examples.bob_at_acme).
  - split; reflexivity.
  - vm_compute. reflexivity.
  - vm_compute. reflexivity.
  - reflexivity.
Defined.

(** ** The employee store *)

(** X11. [fetchEmployeeData] never throws, writes nothing to the database
    and ends with [isLoading] false.  When the employees store answers
    with a record, the record becomes [employeeData] and [error] is null;
    when there is no record, [error] is 'Employee data not found' and
    [employeeData] is what it was before the call; when the store fails,
    [error] is the failure's message (or the fallback text) and
    [employeeData] is again what it was. *)
Theorem fetchEmployeeData_outcome (w : World) (address : string) :
  let w' := snd (useEmployeeStore.fetchEmployeeData address w) in
  fst (useEmployeeStore.fetchEmployeeData address w) = Ok tt
  /\ idb w' = idb w
  /\ es_isLoading (employeeStore w') = false
  /\ match store_error (idb w) Employees, employees (idb w) !! address with
     | Some e, _ =>
         es_employeeData (employeeStore w') = es_employeeData (employeeStore w)
         /\ es_error (employeeStore w')
            = Some (or_else (message e) "Failed to fetch employee data")
     | None, Some data =>
         es_employeeData (employeeStore w') = Some data
         /\ es_error (employeeStore w') = None
     | None, None =>
         es_employeeData (employeeStore w') = es_employeeData (employeeStore w)
         /\ es_error (employeeStore w') = Some "Employee data not found"
     end.
Proof.
  unfold useEmployeeStore.fetchEmployeeData, useEmployeeStore.set_state.
  unfold_prims. cbn.
  destruct (store_error (idb w) Employees) as [e|]; cbn; [auto|].
  destruct (employees (idb w) !! address) as [data|]; cbn; auto.
Qed.

(** X12. After [fetchEmployeeData] has loaded the record of an address,
    [updateEmployeeProfile] with a patch for that address keeps the store
    and the database in step: both hold the old record merged with the
    patch.  After [clearState] the same call updates the database and
    returns, but [employeeData] stays null. *)
Theorem updateEmployeeProfile_sync
  (w : World) (data : EmployeePatch) (existing : Employee) :
  store_error (idb w) Employees = None ->
  employees (idb w) !! np_address data = Some existing ->
  (let w1 := snd (useEmployeeStore.fetchEmployeeData (np_address data) w) in
   let w2 := snd (useEmployeeStore.updateEmployeeProfile data w1) in
   fst (useEmployeeStore.updateEmployeeProfile data w1) = Ok tt
   /\ es_employeeData (employeeStore w2) = Some (employeeDB.merged existing data)
   /\ employees (idb w2) !! np_address data = Some (employeeDB.merged existing data))
  /\ (let w1 := snd (useEmployeeStore.clearState w) in
      let w2 := snd (useEmployeeStore.updateEmployeeProfile data w1) in
      fst (useEmployeeStore.updateEmployeeProfile data w1) = Ok tt
      /\ es_employeeData (employeeStore w2) = None
      /\ employees (idb w2) !! np_address data = Some (employeeDB.merged existing data)).
Proof.
  intros Hees Hget.
  unfold useEmployeeStore.fetchEmployeeData, useEmployeeStore.updateEmployeeProfile,
    useEmployeeStore.clearState, useEmployeeStore.set_state.
  unfold_prims. cbn.
  repeat (progress (rewrite ?Hees, ?Hget; cbn)).
  rewrite lookup_insert_eq. auto.
Qed.

Lemma updateEmployeeProfile_sync_witness :
  let data := mkEmployeePatch Examples.bob (Some "Robert") None (Some "250") None None None None in
  (let w1 := snd (useEmployeeStore.fetchEmployeeData (np_address data) Examples.bob_world) in
   let w2 := snd (useEmployeeStore.updateEmployeeProfile data w1) in
   fst (useEmployeeStore.updateEmployeeProfile data w1) = Ok tt
   /\ es_employeeData (employeeStore w2)
      = Some (employeeDB.merged Examples.bob_at_acme data)
   /\ employees (idb w2) !! np_address data
      = Some (employeeDB.merged Examples.bob_at_acme data))
  /\ (let w1 := snd (useEmployeeStore.clearState Examples.bob_world) in
      let w2 := snd (useEmployeeStore.updateEmployeeProfile data w1) in
      fst (useEmployeeStore.updateEmployeeProfile data w1) = Ok tt
      /\ es_employeeData (employeeStore w2) = None
      /\ employees (idb w2) !! np_address data
         = Some (employeeDB.merged Examples.bob_at_acme data)).
Proof.
  intros data.
  apply (updateEmployeeProfile_sync Examples.bob_world data Examples.bob_at_acme).
  - reflexivity.
  - vm_compute. reflexivity.
Defined.

(** What a call of the store's [registerAsEmployee] that returns has
    done. *)
Lemma store_registerAsEmployee_ok (w : World) (employerAddress : string) :
  fst (useEmployeeStore.registerAsEmployee employerAddress w) = Ok tt ->
  let w1 := snd (useEmployeeStore.registerAsEmployee employerAddress w) in
  exists wal address record,
    ethereum w = Some wal /\ signer_address wal = Ok address
    /\ store_error (idb w) Employees = None
    /\ ethereum w1 = ethereum w
    /\ store_error (idb w1) = store_error (idb w)
    /\ employees (idb w1) !! address = Some record
    /\ es_employeeData (employeeStore w1) = Some record
    /\ (is_Some (employees (idb w) !! address) -> idb w1 = idb w).
Proof.
  unfold useEmployeeStore.registerAsEmployee, useEmployeeStore.set_state,
    useEmployeeStore.new_Web3Provider.
  unfold_prims.
  destruct w as [[wal|] p s db clk u es hk tr]; cbn; [|intros H; discriminate H].
  destruct (signer_address wal) as [address|e] eqn:Hsigner; cbn;
    [|intros H; discriminate H].
  destruct (store_error db Employees) as [e|] eqn:Hees; cbn;
    [intros H; discriminate H|].
  destruct (employees db !! address) as [existing|] eqn:Hget; cbn.
  - intros _. exists wal, address, existing. auto 10.
  - rewrite Hees; cbn. rewrite Hget; cbn. intros _.
    eexists wal, address, _. split; [reflexivity|]. split; [exact Hsigner|].
    split; [reflexivity|]. split; [reflexivity|]. split; [reflexivity|].
    split; [apply lookup_insert_eq|]. split; [reflexivity|].
    intros [x Hx]. cbn in Hx. congruence.
Qed.

(** X13. [registerAsEmployee] of the store is idempotent: once a call has
    returned, a second call, whatever employer address it is given,
    returns as well, writes nothing to the database and shows the record
    the database holds for the signer. *)
Theorem store_registerAsEmployee_idempotent
  (w : World) (employerAddress employerAddress' : string) :
  fst (useEmployeeStore.registerAsEmployee employerAddress w) = Ok tt ->
  let w1 := snd (useEmployeeStore.registerAsEmployee employerAddress w) in
  let w2 := snd (useEmployeeStore.registerAsEmployee employerAddress' w1) in
  fst (useEmployeeStore.registerAsEmployee employerAddress' w1) = Ok tt
  /\ idb w2 = idb w1
  /\ exists wal address record,
       ethereum w = Some wal /\ signer_address wal = Ok address
       /\ employees (idb w2) !! address = Some record
       /\ es_employeeData (employeeStore w2) = Some record.
Proof.
  intros Hfirst.
  destruct (store_registerAsEmployee_ok w employerAddress Hfirst)
    as (wal & address & record & Hwal & Hsigner & Hees & Hwal1 & Hees1 & Hget1 & _ & _).
  cbv zeta.
  set (w1 := snd (useEmployeeStore.registerAsEmployee employerAddress w)) in *.
  assert (fst (useEmployeeStore.registerAsEmployee employerAddress' w1) = Ok tt) as Hsecond.
  { clearbody w1.
    unfold useEmployeeStore.registerAsEmployee, useEmployeeStore.set_state,
      useEmployeeStore.new_Web3Provider.
    unfold_prims. cbn.
    repeat (progress (rewrite ?Hwal1, ?Hwal, ?Hsigner, ?Hees1, ?Hees, ?Hget1; cbn)).
    reflexivity. }
  split; [exact Hsecond|].
  destruct (store_registerAsEmployee_ok w1 employerAddress' Hsecond)
    as (wal2 & address2 & record2 & Hwal2 & Hsigner2 & _ & _ & _ & Hget2 & Hdata2 & Hidb).
  assert (wal2 = wal) as -> by congruence.
  assert (address2 = address) as -> by congruence.
  split; [apply Hidb; rewrite Hget1; eauto|].
  exists wal, address, record2. auto.
Qed.

Lemma store_registerAsEmployee_idempotent_witness :
  let w1 := snd (useEmployeeStore.registerAsEmployee Examples.alice Examples.carol_world) in
  let w2 := snd (useEmployeeStore.registerAsEmployee Examples.bob w1) in
  fst (useEmployeeStore.registerAsEmployee Examples.bob w1) = Ok tt
  /\ idb w2 = idb w1
  /\ exists wal address record,
       ethereum Examples.carol_world = Some wal /\ signer_address wal = Ok address
       /\ employees (idb w2) !! address = Some record
       /\ es_employeeData (employeeStore w2) = Some record.
Proof.
  apply (store_registerAsEmployee_idempotent Examples.carol_world Examples.alice
           Examples.bob).
  vm_compute. reflexivity.
Defined.

(** ** Wallet events and their listeners *)

(** Components setting up their listeners one after the other. *)
Definition setup_all (callbacks : list Callback) (l : Listeners) : Listeners :=
  fold_left (fun l' callback => snd (setupEventListeners callback l')) callbacks l.

Lemma remove_first_last (x : nat) (l : list nat) :
  ~ In x l -> remove_first x (l ++ [x]) = l.
Proof.
  induction l as [|y l IH]; cbn; intros Hnot.
  - rewrite Nat.eqb_refl. reflexivity.
  - destruct (Nat.eqb_spec x y) as [->|Hne]; [tauto|].
    rewrite IH; [reflexivity | tauto].
Qed.

Lemma setup_all_last (callbacks : list Callback) (callback : Callback) (l : Listeners) :
  setup_all (callbacks ++ [callback]) l
  = snd (setupEventListeners callback (setup_all callbacks l)).
Proof. unfold setup_all. rewrite fold_left_app. reflexivity. Qed.

(** What a series of setups leaves, in a browser with a wallet. *)
Lemma setup_all_fields (callbacks : list Callback) (l : Listeners) :
  wallet_present l = true ->
  wallet_present (setup_all callbacks l) = true
  /\ provider_set (setup_all callbacks l) = provider_set l
  /\ signer_set (setup_all callbacks l) = signer_set l
  /\ eventCallbacks (setup_all callbacks l) = eventCallbacks l ++ callbacks
  /\ attached (setup_all callbacks l)
     = attached l ++ seq (setups l) (length callbacks)
  /\ setups (setup_all callbacks l) = (setups l + length callbacks)%nat
  /\ delivered (setup_all callbacks l) = delivered l.
Proof.
  revert l. induction callbacks as [|callback callbacks IH]; intros l Hwallet.
  - cbn. rewrite !app_nil_r, Nat.add_0_r. auto 10.
  - change (setup_all (callback :: callbacks) l)
      with (setup_all callbacks (snd (setupEventListeners callback l))).
    assert (snd (setupEventListeners callback l)
            = mkListeners true (provider_set l) (signer_set l)
                (eventCallbacks l ++ [callback])
                (Some (mkSetup (setups l) callback))
                (attached l ++ [setups l]) (S (setups l)) (delivered l)) as ->.
    { unfold setupEventListeners. rewrite Hwallet. reflexivity. }
    match goal with
    | |- context [setup_all callbacks ?l1] =>
        destruct (IH l1 eq_refl) as (H1 & H2 & H3 & H4 & H5 & H6 & H7)
    end.
    cbn in H2, H3, H4, H5, H6, H7.
    rewrite H1, H2, H3, H4, H5, H6, H7, <- !app_assoc. cbn.
    repeat split; try reflexivity. lia.
Qed.



Lemma notify_rounds (event : WalletEvent) (handlers : list nat) (l : Listeners) :
  let l' := fold_left (fun l' _ => notifyCallbacks event l') handlers l in
  delivered l'
  = delivered l
    ++ concat (repeat (map (fun callback => (callback, event)) (eventCallbacks l))
                      (length handlers))
  /\ eventCallbacks l' = eventCallbacks l.
Proof.
  revert l. induction handlers as [|h handlers IH]; intros l; cbn.
  - rewrite app_nil_r. auto.
  - destruct (IH (notifyCallbacks event l)) as [H1 H2]. cbn in *.
    rewrite H1, H2, <- app_assoc. auto.
Qed.

(** X15. Every setup attaches handlers of its own, and each handler
    notifies all registered callbacks: after [n] components have set up
    their listeners, one chain change or one change of account of the
    wallet calls each of the [n] callbacks [n] times. *)
Theorem wallet_event_fan_out
  (l : Listeners) (callbacks : list Callback) (account : string) (others : list string) :
  wallet_present l = true ->
  eventCallbacks l = [] ->
  attached l = [] ->
  delivered (emit_chainChanged (setup_all callbacks l))
  = delivered l
    ++ concat (repeat (map (fun callback => (callback, networkChanged)) callbacks)
                      (length callbacks))
  /\ delivered (emit_accountsChanged (account :: others) (setup_all callbacks l))
     = delivered l
       ++ concat (repeat (map (fun callback => (callback, accountChanged account)) callbacks)
                         (length callbacks)).
Proof.
  intros Hwallet Hcallbacks Hattached.
  destruct (setup_all_fields callbacks l Hwallet) as (_ & _ & _ & H4 & H5 & _ & H7).
  rewrite Hcallbacks in H4. rewrite Hattached in H5. cbn in H4, H5.
  unfold emit_chainChanged, emit_accountsChanged, handleChainChanged,
    handleAccountsChanged.
  split.
  - destruct (notify_rounds networkChanged (attached (setup_all callbacks l))
                (setup_all callbacks l)) as [H _].
    cbn in H. rewrite H, H4, H5, H7, length_seq. reflexivity.
  - destruct (notify_rounds (accountChanged account) (attached (setup_all callbacks l))
                (setup_all callbacks l)) as [H _].
    cbn in H. rewrite H, H4, H5, H7, length_seq. reflexivity.
Qed.

Lemma wallet_event_fan_out_witness :
  delivered (emit_chainChanged (setup_all [1; 2]%nat Examples.no_listeners))
  = delivered Examples.no_listeners
    ++ concat (repeat (map (fun callback => (callback, networkChanged)) [1; 2]%nat)
                      (length [1; 2]%nat))
  /\ delivered (emit_accountsChanged (Examples.bob :: [])
                  (setup_all [1; 2]%nat Examples.no_listeners))
     = delivered Examples.no_listeners
       ++ concat (repeat (map (fun callback => (callback, accountChanged Examples.bob))
                              [1; 2]%nat)
                         (length [1; 2]%nat)).
Proof.
  apply (wallet_event_fan_out Examples.no_listeners [1; 2]%nat Examples.bob []);
    reflexivity.
Defined.



(** ** The role cookies and the route guard *)

(** The dashboard of a role. *)
Definition dashboard (r : Role) : string := "/" +:+ RoleAuthentication.role_name r.

Lemma existsb_authRoutes_dashboard (path : string) :
  protected path = true -> existsb (String.eqb path) authRoutes = false.
Proof.
  intros Hprotected. destruct (existsb _ authRoutes) eqn:Hroute; [|reflexivity].
  apply auth_route in Hroute as [-> | ->]; discriminate Hprotected.
Qed.

(** X17. [RoleAuthentication.setRole] writes what the route guard reads:
    once a role is set for a non-empty address, the guard lets the browser
    into every path of that role's dashboard, sends it from '/auth' and
    '/' to the dashboard and from the other dashboard back to its own, and
    [verifyRole] answers with the role.  After [logout] the guard sends
    both dashboards to '/auth', while [verifyRole] still answers with the
    role: [logout] removes the cookies and leaves [localStorage] alone. *)
Theorem setRole_opens_dashboard
  (b : Browser) (address : string) (r : Role) (path : string) :
  truthy address = true ->
  startsWith path (dashboard r) = true ->
  let b' := RoleAuthentication.setRole address (Some r) b in
  RoleAuthentication.verifyRole address b' = Some (RoleAuthentication.role_name r)
  /\ middleware (browser_request path b') = next
  /\ middleware (browser_request "/auth" b') = redirect (dashboard r)
  /\ middleware (browser_request "/" b') = redirect (dashboard r)
  /\ middleware (browser_request
                   (dashboard match r with employer => employee | employee => employer end)
                   b')
     = redirect (dashboard r)
  /\ middleware (browser_request path (RoleAuthentication.logout b')) = redirect "/auth"
  /\ RoleAuthentication.verifyRole address (RoleAuthentication.logout b')
     = Some (RoleAuthentication.role_name r).
Proof.
  intros Haddress Hpath. cbv zeta.
  change (dashboard employer) with "/employer" in *.
  change (dashboard employee) with "/employee" in *.
  assert (protected path = true) as Hprotected.
  { unfold protected.
    destruct r; [change (dashboard employer) with "/employer" in Hpath
                |change (dashboard employee) with "/employee" in Hpath];
      rewrite Hpath; auto using orb_true_r. }
  pose proof (existsb_authRoutes_dashboard path Hprotected) as Hroute.
  unfold RoleAuthentication.verifyRole, RoleAuthentication.setRole,
    RoleAuthentication.logout, browser_request, middleware.
  cbn [localStorage cookie_jar pathname cookies].
  rewrite !protected_some, Hprotected, Hroute.
  rewrite lookup_insert_eq.
  rewrite lookup_insert_ne by discriminate. rewrite !lookup_insert_eq.
  rewrite lookup_delete_ne by discriminate. rewrite lookup_delete_eq.
  cbn [truthy_opt negb andb]. rewrite Haddress. cbn [negb].
  destruct r; [change (dashboard employer) with "/employer" in *
              |change (dashboard employee) with "/employee" in *];
    cbn [RoleAuthentication.role_name].
  - rewrite Hpath. rewrite (employer_not_employee _ Hpath). cbn. auto 10.
  - rewrite Hpath.
    assert (startsWith path "/employer" = false) as ->.
    { destruct (startsWith path "/employer") eqn:He; [|reflexivity].
      rewrite (employer_not_employee _ He) in Hpath. discriminate Hpath. }
    cbn. auto 10.
Qed.

Lemma setRole_opens_dashboard_witness :
  let b' := RoleAuthentication.setRole Examples.bob (Some employee) Examples.fresh_browser in
  RoleAuthentication.verifyRole Examples.bob b' = Some (RoleAuthentication.role_name employee)
  /\ middleware (browser_request "/employee/payments" b') = next
  /\ middleware (browser_request "/auth" b') = redirect (dashboard employee)
  /\ middleware (browser_request "/" b') = redirect (dashboard employee)
  /\ middleware (browser_request (dashboard employer) b') = redirect (dashboard employee)
  /\ middleware (browser_request "/employee/payments" (RoleAuthentication.logout b'))
     = redirect "/auth"
  /\ RoleAuthentication.verifyRole Examples.bob (RoleAuthentication.logout b')
     = Some (RoleAuthentication.role_name employee).
Proof.
  apply (setRole_opens_dashboard Examples.fresh_browser Examples.bob employee
           "/employee/payments"); reflexivity.
Defined.

(** ** Addresses as displayed *)

Lemma take_string_length (n : nat) (s : string) :
  String.length (take_string n s) = Nat.min n (String.length s).
Proof.
  revert s. induction n as [|n IH]; intros [|c s]; cbn; try reflexivity.
  rewrite IH. reflexivity.
Qed.

Lemma drop_string_length (n : nat) (s : string) :
  String.length (drop_string n s) = (String.length s - n)%nat.
Proof.
  revert s. induction n as [|n IH]; intros [|c s]; cbn; try reflexivity.
  apply IH.
Qed.

Lemma append_length (s t : string) :
  String.length (s +:+ t) = (String.length s + String.length t)%nat.
Proof.
  induction s as [|c s IH]; [reflexivity|].
  change (String c s +:+ t) with (String c (s +:+ t)). cbn [String.length].
  rewrite IH. reflexivity.
Qed.

Lemma take_drop_string (n : nat) (s : string) :
  take_string n s +:+ drop_string n s = s.
Proof.
  revert s. induction n as [|n IH]; intros [|c s]; cbn [take_string drop_string];
    try reflexivity.
  change (String c (take_string n s) +:+ drop_string n s)
    with (String c (take_string n s +:+ drop_string n s)).
  rewrite IH. reflexivity.
Qed.

(** X18. [formatAddress] gives the empty string for null and for the empty
    string.  For an address of ten characters or more it gives thirteen
    characters: the first six of the address, three dots and the last
    four.  For a shorter address nothing is elided: the result is longer
    than the address, which it shows in full once or twice. *)
Theorem formatAddress_shape (address : string) :
  formatAddress None = ""
  /\ formatAddress (Some "") = ""
  /\ (address <> "" ->
      String.length (formatAddress (Some address))
      = (Nat.min 6 (String.length address) + 3 + Nat.min 4 (String.length address))%nat
      /\ exists middle rest,
           address = take_string 6 address +:+ middle
           /\ address = rest +:+ drop_string (String.length address - 4) address
           /\ formatAddress (Some address)
              = take_string 6 address +:+ "..."
                +:+ drop_string (String.length address - 4) address)
  /\ ((10 <= String.length address)%nat ->
      String.length (formatAddress (Some address)) = 13%nat)
  /\ ((0 < String.length address < 10)%nat ->
      (String.length address < String.length (formatAddress (Some address)))%nat).
Proof.
  assert (forall a, a <> "" ->
            String.length (formatAddress (Some a))
            = (Nat.min 6 (String.length a) + 3 + Nat.min 4 (String.length a))%nat)
    as Hlength.
  { intros a Ha. unfold formatAddress. destruct a as [|c a]; [congruence|].
    cbn [truthy]. rewrite !append_length, take_string_length, drop_string_length.
    cbn [String.length]. lia. }
  split; [reflexivity|]. split; [reflexivity|]. split; [|split].
  - intros Hne. split; [apply Hlength, Hne|].
    exists (drop_string 6 address), (take_string (String.length address - 4) address).
    rewrite !take_drop_string. split; [reflexivity|]. split; [reflexivity|].
    unfold formatAddress. destruct address; [congruence | reflexivity].
  - intros Hlong. rewrite Hlength; [lia|]. intros ->. cbn in Hlong. lia.
  - intros Hshort. rewrite Hlength; [lia|]. intros ->. cbn in Hshort. lia.
Qed.
